(** * Relation fixer: [getMissingDocletsData]

    A shallow embedding of
    [packages/jsdoc-plugins/lib/relation-fixer/getmissingdocletsdata.js]
    and the properties of the doclet-inheritance resolution it implements.

    JavaScript objects are finite maps from property names to values,
    exceptions are an explicit outcome, and the [for ... of] loops are folds
    over lists.  A second part covers the decisions of the release task
    [releaseSubRepositories] that do not touch the shell or the network. *)

From Stdlib Require Import ZArith Ascii String List DecimalString.
From stdpp Require Import base option list strings gmap.

Set Warnings "-register-all,-notation-for-abbreviation".

Local Open Scope string_scope.
Local Open Scope Z_scope.
Local Open Scope list_scope.

(** ** JavaScript values *)

Module Js.

(** The values a doclet field can hold.  Numbers are the integer-valued ones
    that print in plain decimal (no [NaN], no fractions, magnitude below
    [1e21]); a nested object is kept with its fields but the resolver never
    reads inside one.  A string is a sequence of characters; on the ASCII
    longnames of doclets these are JavaScript's code units. *)
Inductive value : Type :=
  | VUndefined
  | VNull
  | VBool (b : bool)
  | VNum (n : Z)
  | VStr (s : string)
  | VArr (elems : list value)
  | VObj (fields : list (string * value)).

(** An object is the finite map of its own enumerable properties. *)
Notation obj := (gmap string value).

(** What a call can do: return, or throw. The only exception the module can
    raise is the [TypeError] of reading a property of [undefined]/[null] or of
    calling something that is not a function. *)
Inductive outcome (A : Type) : Type :=
  | Returns (a : A)
  | TypeError.
Arguments Returns {A} a.
Arguments TypeError {A}.

#[global] Instance outcome_ret : MRet outcome := λ A, Returns.

(** Sequencing: an exception skips the rest. *)
#[global] Instance outcome_bind : MBind outcome := λ A B f m,
  match m with
  | Returns a => f a
  | TypeError => TypeError
  end.

(** ToBoolean. *)
Definition truthy (v : value) : bool :=
  match v with
  | VUndefined | VNull => false
  | VBool b => b
  | VNum n => negb (n =? 0)
  | VStr s => negb (String.eqb s "")
  | VArr _ | VObj _ => true
  end.

(** [typeof v == 'string'] *)
Definition is_string (v : value) : bool :=
  match v with VStr _ => true | _ => false end.

(** The strict equality [===].  Arrays and objects are compared by identity in
    JavaScript and the model has no object identity: two references are never
    [===].  In the resolver one side of every comparison is a literal, a field
    of a fresh deep clone, a value of the caller's filter or the longname of
    the target, so the two sides are one and the same array only if the caller
    shares it between two of its arguments. *)
Definition strict_eq (a b : value) : bool :=
  match a, b with
  | VUndefined, VUndefined => true
  | VNull, VNull => true
  | VBool x, VBool y => Bool.eqb x y
  | VNum x, VNum y => x =? y
  | VStr x, VStr y => String.eqb x y
  | _, _ => false
  end.

(** ToString, as applied by template literals, by [+] on a string and by the
    conversion of a computed property key. *)
Fixpoint to_string (v : value) : string :=
  match v with
  | VUndefined => "undefined"
  | VNull => "null"
  | VBool true => "true"
  | VBool false => "false"
  | VNum n => NilZero.string_of_int (Z.to_int n)
  | VStr s => s
  | VArr elems =>
      (* Array.prototype.join( ',' ): null and undefined print as nothing *)
      let item x :=
        match x with
        | VUndefined | VNull => ""
        | _ => to_string x
        end in
      (fix join (l : list value) : string :=
         match l with
         | [] => ""
         | x :: l' =>
             match l' with
             | [] => item x
             | _ :: _ => item x +:+ "," +:+ join l'
             end
         end) elems
  | VObj _ => "[object Object]"
  end.

(** Property names every plain object inherits from [Object.prototype]. Reading
    one of them on an object that has no own property of that name yields a
    built-in function (or, for [__proto__], the prototype object): a truthy
    reference that has none of the doclet fields. *)
Definition object_prototype_keys : list string :=
  [ "constructor"; "__defineGetter__"; "__defineSetter__"; "hasOwnProperty";
    "__lookupGetter__"; "__lookupSetter__"; "isPrototypeOf";
    "propertyIsEnumerable"; "toString"; "valueOf"; "__proto__";
    "toLocaleString" ].

Definition is_prototype_key (k : string) : bool :=
  existsb (String.eqb k) object_prototype_keys.

(** [o.k] for a property name [k] that [Object.prototype] does not define:
    the own property, [undefined] when there is none. *)
Definition field (o : obj) (k : string) : value :=
  default VUndefined (o !! k).

(** [o[ k ] = v] *)
Definition set (o : obj) (k : string) (v : value) : obj := <[k := v]> o.

(** [a !== b] where [a = o[ k ]] for an arbitrary key [k]: an inherited
    built-in is identical to no value of the model. *)
Definition prop_strict_neq (o : obj) (k : string) (b : value) : bool :=
  match o !! k with
  | Some a => negb (strict_eq a b)
  | None => if is_prototype_key k then true else negb (strict_eq VUndefined b)
  end.

(** [Array.isArray( v ) && v.length > 0] *)
Definition isNonEmptyArray (v : value) : bool :=
  match v with
  | VArr (_ :: _) => true
  | _ => false
  end.

(** The elements of an array value. *)
Definition elements_of (v : value) : list value :=
  match v with
  | VArr elems => elems
  | _ => []
  end.

(** [_.cloneDeep]: a deep copy.  Objects are values here, so the copy is the
    same map; what the copy buys in JavaScript (the original is not touched by
    the later assignments) holds of every [set]. *)
Definition cloneDeep (o : obj) : obj := o.

(** A [for ( const x of l )] loop whose body updates a state and may throw. *)
Fixpoint for_of {S A} (body : S → A → outcome S) (l : list A) (s : S)
  : outcome S :=
  match l with
  | [] => Returns s
  | x :: l' => s' ← body s x ; for_of body l' s'
  end.

(** *** Strings and arrays as sequences *)

(** [indexOf]: the index of the first element satisfying [p], [-1] when there
    is none. *)
Fixpoint indexOf_from {A} (p : A → bool) (l : list A) (i : Z) : Z :=
  match l with
  | [] => -1
  | x :: l' => if p x then i else indexOf_from p l' (i + 1)
  end.

Definition indexOf {A} (p : A → bool) (l : list A) : Z := indexOf_from p l 0.

(** [lastIndexOf]: the index of the last element satisfying [p], [-1] when
    there is none. *)
Fixpoint lastIndexOf_from {A} (p : A → bool) (l : list A) (i acc : Z) : Z :=
  match l with
  | [] => acc
  | x :: l' => lastIndexOf_from p l' (i + 1) (if p x then i else acc)
  end.

Definition lastIndexOf {A} (p : A → bool) (l : list A) : Z :=
  lastIndexOf_from p l 0 (-1).

(** [slice( start )]: a negative [start] counts from the end. *)
Definition slice {A} (start : Z) (l : list A) : list A :=
  let len := Z.of_nat (length l) in
  let from := if start <? 0 then Z.max (len + start) 0 else Z.min start len in
  drop (Z.to_nat from) l.

Definition str_lastIndexOf (c : ascii) (s : string) : Z :=
  lastIndexOf (Ascii.eqb c) (list_ascii_of_string s).

Definition str_slice (start : Z) (s : string) : string :=
  string_of_list_ascii (slice start (list_ascii_of_string s)).

End Js.

Import Js.

(** ** The doclet store and the options *)

Notation Doclet := (gmap string value).

(** The collection is an injected store; the resolver only reads it, through
    [get( category )] and [getAll()]. *)
Module DocletCollection.
Record t : Type := {
  get : string → list Doclet;
  getAll : list Doclet
}.
End DocletCollection.
Notation DocletCollection := DocletCollection.t.

(** Name of the relation between the child entity and its ancestors. *)
Inductive Relation : Type :=
  | augmentsNested
  | mixesNested
  | implementsNested.

Definition relation_key (r : Relation) : string :=
  match r with
  | augmentsNested => "augmentsNested"
  | mixesNested => "mixesNested"
  | implementsNested => "implementsNested"
  end.

Module Options.
Record t : Type := {
  relation : Relation;
  filter : option obj;
  onlyImplicitlyInherited : value
}.
End Options.
Notation Options := Options.t.

(** The category under which the members of [longname] are stored:
    [`memberof:${ longname }`]. *)
Definition memberof_category (longname : value) : string :=
  "memberof:" +:+ to_string longname.

(** ** The resolver *)

(** [shouldDocletBeAdded], the filter inside [getDocletsToAdd]. *)
Definition shouldDocletBeAdded (options : Options) (doclet : Doclet) : bool :=
  if truthy (field doclet "ignore")
     || truthy (field doclet "undocumented")
     || is_string (field doclet "inheritdoc")
  then false
  else
    forallb (λ kv : string * value, negb (prop_strict_neq doclet kv.1 kv.2))
            (map_to_list (default ∅ (Options.filter options))).

(** [childDoclet[ options.relation ] || []]; calling [reduce] on a truthy
    value that is not an array throws. *)
Definition ancestors_of (childDoclet : Doclet) (options : Options)
  : outcome (list value) :=
  let v := field childDoclet (relation_key (Options.relation options)) in
  if truthy v then
    match v with
    | VArr longnames => Returns longnames
    | _ => TypeError
    end
  else Returns [].

Definition getDocletsToAdd (docletCollection : DocletCollection)
    (childDoclet : Doclet) (options : Options) : outcome (list Doclet) :=
  ancestors ← ancestors_of childDoclet options ;
  Returns
    (fold_left
       (λ docletsToAdd longname,
          docletsToAdd ++
          List.filter (shouldDocletBeAdded options)
            (DocletCollection.get docletCollection (memberof_category longname)))
       ancestors []).

(** What [docletMap[ key ]] reads from the plain object built by
    [createDocletMap]: the stored doclet, else an inherited built-in (an
    object without [kind] and without [descendants]), else [undefined]. *)
Definition builtin : Doclet := ∅.

Definition docletMap_read (docletMap : gmap string Doclet) (key : string)
  : option Doclet :=
  match docletMap !! key with
  | Some doclet => Some doclet
  | None => if is_prototype_key key then Some builtin else None
  end.

(** The body of the loop in [createDocletMap]: the first doclet of a longname
    wins. *)
Definition docletMap_add (docletMap : gmap string Doclet) (doclet : Doclet)
  : gmap string Doclet :=
  let key := to_string (field doclet "longname") in
  match docletMap_read docletMap key with
  | None => <[key := doclet]> docletMap
  | Some _ => docletMap
  end.

Definition createDocletMap (doclets : DocletCollection) : gmap string Doclet :=
  fold_left docletMap_add (DocletCollection.getAll doclets) ∅.

Definition getLongnameForNewDoclet (parentDoclet childDoclet : Doclet)
  : outcome value :=
  match field parentDoclet "longname" with
  | VStr longname =>
      let dotIndex := str_lastIndexOf "." longname in
      let hashIndex := str_lastIndexOf "#" longname in
      let name := str_slice (Z.max dotIndex hashIndex) longname in
      Returns (VStr (to_string (field childDoclet "longname") +:+ name))
  | VArr longname =>
      (* an array has [lastIndexOf] and [slice] too *)
      let dotIndex := lastIndexOf (strict_eq (VStr ".")) longname in
      let hashIndex := lastIndexOf (strict_eq (VStr "#")) longname in
      let name := VArr (slice (Z.max dotIndex hashIndex) longname) in
      Returns (VStr (to_string (field childDoclet "longname") +:+ to_string name))
  | _ => TypeError
  end.

(** [doclet.descendants] is a non-empty array that contains [longname]. *)
Definition descendants_include (doclet : Doclet) (longname : value) : bool :=
  isNonEmptyArray (field doclet "descendants")
  && negb (indexOf (λ x, strict_eq x longname)
                   (elements_of (field doclet "descendants")) =? -1).

(** One turn of the loop over [memberDocletParent.descendants]; the state is
    [(isInherited, isMixed)]. *)
Definition scan_descendant (docletMap : gmap string Doclet) (childDoclet : Doclet)
    (flags : bool * bool) (longname : value) : bool * bool :=
  let '(isInherited, isMixed) := flags in
  match docletMap_read docletMap (to_string longname) with
  | Some doclet =>
      if strict_eq (field doclet "kind") (VStr "mixin") then
        if descendants_include doclet (field childDoclet "longname")
        then (isInherited, true) else (isInherited, isMixed)
      else if strict_eq (field doclet "kind") (VStr "class") then
        if descendants_include doclet (field childDoclet "longname")
        then (true, isMixed) else (isInherited, isMixed)
      else (isInherited, isMixed)
  | None => (isInherited, isMixed)
  end.

(** Returns ['inherited'], ['mixed'] or [null]. *)
Definition getRelationProperty (docletMap : gmap string Doclet)
    (childDoclet memberDoclet : Doclet) (relation : Relation) : outcome value :=
  match relation with
  | augmentsNested => Returns (VStr "inherited")
  | mixesNested => Returns (VStr "mixed")
  | implementsNested =>
      match docletMap_read docletMap (to_string (field memberDoclet "memberof")) with
      | None => TypeError (* memberDocletParent.descendants of undefined *)
      | Some memberDocletParent =>
          let '(isInherited, isMixed) :=
            if isNonEmptyArray (field memberDocletParent "descendants") then
              fold_left (scan_descendant docletMap childDoclet)
                        (elements_of (field memberDocletParent "descendants"))
                        (false, false)
            else (false, false) in
          Returns (if isMixed then VStr "mixed"
                   else if isInherited then VStr "inherited"
                   else VNull)
      end
  end.

Definition doAllParentsExplicitlyInherit (doclets : list Doclet) : bool :=
  forallb
    (λ doclet,
       negb (strict_eq (field doclet "inheritdoc") VUndefined
             && strict_eq (field doclet "overrides") VUndefined))
    doclets.

Record MissingDocletsData : Type := {
  newDoclets : list Doclet;
  docletsWhichShouldBeIgnored : list Doclet
}.

(** The clone of the candidate, re-homed under the target and tagged. *)
Definition clonedDoclet (docletToAdd interfaceClassOrMixinDoclet : Doclet)
    (longname relationProperty : value) : Doclet :=
  let cloned := cloneDeep docletToAdd in
  let cloned := set cloned "longname" longname in
  let cloned := set cloned "memberof" (field interfaceClassOrMixinDoclet "longname") in
  if truthy relationProperty
  then set cloned (to_string relationProperty) (VBool true)
  else cloned.

(** The doclets already stored under the clone's [memberof] with its name and
    kind. *)
Definition docletsOfSameMember (docletCollection : DocletCollection)
    (cloned : Doclet) : list Doclet :=
  List.filter
    (λ d, strict_eq (field d "name") (field cloned "name")
          && strict_eq (field d "kind") (field cloned "kind"))
    (DocletCollection.get docletCollection
       (memberof_category (field cloned "memberof"))).

(** The clone of an existing sibling, with the relation property forced. *)
Definition correctDoclet (sibling : Doclet) (relationProperty : value) : Doclet :=
  set (cloneDeep sibling) (to_string relationProperty) (VBool true).

(** The body of the loop over [docletsToAdd]. *)
Definition resolve_member (docletCollection : DocletCollection)
    (docletMap : gmap string Doclet) (interfaceClassOrMixinDoclet : Doclet)
    (options : Options) (acc : MissingDocletsData) (docletToAdd : Doclet)
  : outcome MissingDocletsData :=
  longname ← getLongnameForNewDoclet docletToAdd interfaceClassOrMixinDoclet ;
  relationProperty ←
    getRelationProperty docletMap interfaceClassOrMixinDoclet docletToAdd
                        (Options.relation options) ;
  let cloned :=
    clonedDoclet docletToAdd interfaceClassOrMixinDoclet longname relationProperty in
  let siblings := docletsOfSameMember docletCollection cloned in
  if (Z.of_nat (length siblings) =? 0) then
    Returns {| newDoclets := newDoclets acc ++ [cloned];
               docletsWhichShouldBeIgnored := docletsWhichShouldBeIgnored acc |}
  else if doAllParentsExplicitlyInherit siblings
          && negb (truthy (Options.onlyImplicitlyInherited options)) then
    Returns {| newDoclets := newDoclets acc ++ [cloned];
               docletsWhichShouldBeIgnored :=
                 docletsWhichShouldBeIgnored acc ++ siblings |}
  else if (2 <=? Z.of_nat (length siblings)) then
    match siblings !! 0%nat with
    | Some first =>
        Returns {| newDoclets :=
                     newDoclets acc ++ [correctDoclet first relationProperty];
                   docletsWhichShouldBeIgnored :=
                     docletsWhichShouldBeIgnored acc ++ siblings |}
    | None => TypeError (* no first element: not reachable with two or more *)
    end
  else Returns acc.

Definition getMissingDocletsData (docletCollection : DocletCollection)
    (interfaceClassOrMixinDoclet : Doclet) (options : Options)
  : outcome MissingDocletsData :=
  docletsToAdd ←
    getDocletsToAdd docletCollection interfaceClassOrMixinDoclet options ;
  let docletMap := createDocletMap docletCollection in
  for_of (resolve_member docletCollection docletMap interfaceClassOrMixinDoclet options)
         docletsToAdd
         {| newDoclets := []; docletsWhichShouldBeIgnored := [] |}.

(** ** Vocabulary of the properties *)


(** The condition for keeping a member as the specification words it: the
    [inheritdoc] clause only excludes a non-empty pointer. *)
Definition claimed_candidate (options : Options) (doclet : Doclet) : Prop :=
  truthy (field doclet "ignore") = false
  ∧ truthy (field doclet "undocumented") = false
  ∧ (∀ pointer, field doclet "inheritdoc" = VStr pointer → pointer = "")
  ∧ ∀ key expected,
      default ∅ (Options.filter options) !! key = Some expected →
      prop_strict_neq doclet key expected = false.

(** [parent] has a descendant of the given kind whose own descendants include
    the longname of [target]. *)
Definition has_descendant_of_kind (docletMap : gmap string Doclet)
    (parent target : Doclet) (kind : string) : Prop :=
  ∃ longname doclet,
    longname ∈ elements_of (field parent "descendants")
    ∧ docletMap_read docletMap (to_string longname) = Some doclet
    ∧ field doclet "kind" = VStr kind
    ∧ ∃ x, x ∈ elements_of (field doclet "descendants")
           ∧ strict_eq x (field target "longname") = true.

(** The test made on one descendant of the parent, for one kind. *)
Definition descendant_hit (docletMap : gmap string Doclet) (target : Doclet)
    (kind : string) (longname : value) : bool :=
  match docletMap_read docletMap (to_string longname) with
  | Some doclet =>
      strict_eq (field doclet "kind") (VStr kind)
      && descendants_include doclet (field target "longname")
  | None => false
  end.

(** [d] has the name and the kind of [candidate]. *)
Definition same_member (candidate d : Doclet) : bool :=
  strict_eq (field d "name") (field candidate "name")
  && strict_eq (field d "kind") (field candidate "kind").

(** The doclets already declared under [target] with the name and kind of
    [candidate]. *)
Definition siblings_of_same_member (docletCollection : DocletCollection)
    (target candidate : Doclet) : list Doclet :=
  List.filter (same_member candidate)
    (DocletCollection.get docletCollection
       (memberof_category (field target "longname"))).

(** ** Example stores *)

Definition doclet (fields : list (string * value)) : Doclet := list_to_map fields.

(** A store in which every doclet is filed under the category of its own
    [memberof]. *)
Definition collection_of (doclets : list Doclet) : DocletCollection :=
  {| DocletCollection.get category :=
       List.filter
         (λ d, String.eqb (memberof_category (field d "memberof")) category)
         doclets;
     DocletCollection.getAll := doclets |}.

Definition options_for (relation : Relation) : Options :=
  {| Options.relation := relation;
     Options.filter := None;
     Options.onlyImplicitlyInherited := VUndefined |}.

Definition animal : Doclet :=
  doclet [("longname", VStr "Animal"); ("name", VStr "Animal"); ("kind", VStr "class")].
Definition speak : Doclet :=
  doclet [("longname", VStr "Animal#speak"); ("memberof", VStr "Animal");
          ("name", VStr "speak"); ("kind", VStr "function");
          ("scope", VStr "instance")].
Definition create : Doclet :=
  doclet [("longname", VStr "Animal.create"); ("memberof", VStr "Animal");
          ("name", VStr "create"); ("kind", VStr "function");
          ("scope", VStr "static")].
Definition legacy : Doclet :=
  doclet [("longname", VStr "Animal#legacy"); ("memberof", VStr "Animal");
          ("name", VStr "legacy"); ("kind", VStr "function");
          ("scope", VStr "instance"); ("inheritdoc", VStr "")].
Definition dog : Doclet :=
  doclet [("longname", VStr "Dog"); ("name", VStr "Dog"); ("kind", VStr "class");
          ("augmentsNested", VArr [VStr "Animal"])].
Definition zoo : DocletCollection := collection_of [animal; speak; create; legacy; dog].

Definition static_only : Options :=
  {| Options.relation := augmentsNested;
     Options.filter := Some {[ "scope" := VStr "static" ]};
     Options.onlyImplicitlyInherited := VBool false |}.

Definition dog_speak : Doclet :=
  doclet [("longname", VStr "Dog#speak"); ("memberof", VStr "Dog");
          ("name", VStr "speak"); ("kind", VStr "function");
          ("scope", VStr "instance"); ("inherited", VBool true)].
Definition dog_create : Doclet :=
  doclet [("longname", VStr "Dog.create"); ("memberof", VStr "Dog");
          ("name", VStr "create"); ("kind", VStr "function");
          ("scope", VStr "static"); ("inherited", VBool true)].


(** [Dog] already declares [speak] twice, both times with [@inheritdoc]. *)
Definition speak_override1 : Doclet :=
  doclet [("longname", VStr "Dog#speak"); ("memberof", VStr "Dog");
          ("name", VStr "speak"); ("kind", VStr "function");
          ("inheritdoc", VStr "")].
Definition speak_override2 : Doclet :=
  doclet [("longname", VStr "Dog#speak"); ("memberof", VStr "Dog");
          ("name", VStr "speak"); ("kind", VStr "function");
          ("inheritdoc", VStr ""); ("description", VStr "Barks.")].
Definition kennel : DocletCollection :=
  collection_of [animal; speak; dog; speak_override1; speak_override2].

(** An interface and a class implementing it. *)
Definition speaker : Doclet :=
  doclet [("longname", VStr "Speaker"); ("name", VStr "Speaker");
          ("kind", VStr "interface")].
Definition talk : Doclet :=
  doclet [("longname", VStr "Speaker#talk"); ("memberof", VStr "Speaker");
          ("name", VStr "talk"); ("kind", VStr "function")].
Definition parrot : Doclet :=
  doclet [("longname", VStr "Parrot"); ("name", VStr "Parrot");
          ("kind", VStr "class"); ("implementsNested", VArr [VStr "Speaker"])].
Definition aviary : DocletCollection := collection_of [speaker; talk; parrot].
Definition parrot_talk : Doclet :=
  doclet [("longname", VStr "Parrot#talk"); ("memberof", VStr "Parrot");
          ("name", VStr "talk"); ("kind", VStr "function")].

(** The same, but the interface itself is not in the store. *)
Definition aviary_without_speaker : DocletCollection := collection_of [talk; parrot].

(** The interface reaches [Parrot] both through a mixin and through a class. *)
Definition speaker_with_descendants : Doclet :=
  doclet [("longname", VStr "Speaker"); ("name", VStr "Speaker");
          ("kind", VStr "interface");
          ("descendants", VArr [VStr "TalkMixin"; VStr "Bird"; VStr "Parrot"])].
Definition talk_mixin : Doclet :=
  doclet [("longname", VStr "TalkMixin"); ("name", VStr "TalkMixin");
          ("kind", VStr "mixin"); ("descendants", VArr [VStr "Parrot"])].
Definition bird : Doclet :=
  doclet [("longname", VStr "Bird"); ("name", VStr "Bird");
          ("kind", VStr "class"); ("descendants", VArr [VStr "Parrot"])].
Definition aviary_with_descendants : DocletCollection :=
  collection_of [speaker_with_descendants; talk_mixin; bird; talk; parrot].

(** [Parrot] already has two [talk] doclets, one of them not explicit. *)
Definition talk_existing1 : Doclet :=
  doclet [("longname", VStr "Parrot#talk"); ("memberof", VStr "Parrot");
          ("name", VStr "talk"); ("kind", VStr "function")].
Definition talk_existing2 : Doclet :=
  doclet [("longname", VStr "Parrot#talk"); ("memberof", VStr "Parrot");
          ("name", VStr "talk"); ("kind", VStr "function");
          ("inheritdoc", VStr "")].
Definition crowded_aviary : DocletCollection :=
  collection_of [speaker; talk; parrot; talk_existing1; talk_existing2].

(** A member that an earlier pass already tagged [mixed], now inherited. *)
Definition cat : Doclet :=
  doclet [("longname", VStr "Cat"); ("name", VStr "Cat"); ("kind", VStr "class")].
Definition purr : Doclet :=
  doclet [("longname", VStr "Cat#purr"); ("memberof", VStr "Cat");
          ("name", VStr "purr"); ("kind", VStr "function"); ("mixed", VBool true)].
Definition kitten : Doclet :=
  doclet [("longname", VStr "Kitten"); ("name", VStr "Kitten");
          ("kind", VStr "class"); ("augmentsNested", VArr [VStr "Cat"])].
Definition cattery : DocletCollection := collection_of [cat; purr; kitten].
Definition kitten_purr : Doclet :=
  doclet [("longname", VStr "Kitten#purr"); ("memberof", VStr "Kitten");
          ("name", VStr "purr"); ("kind", VStr "function");
          ("mixed", VBool true); ("inherited", VBool true)].

(** [Dog] declares [speak] twice: a static method and an instance method. *)
Definition dog_static_speak : Doclet :=
  doclet [("longname", VStr "Dog.speak"); ("memberof", VStr "Dog");
          ("name", VStr "speak"); ("kind", VStr "function");
          ("scope", VStr "static")].
Definition dog_instance_speak : Doclet :=
  doclet [("longname", VStr "Dog#speak"); ("memberof", VStr "Dog");
          ("name", VStr "speak"); ("kind", VStr "function");
          ("scope", VStr "instance")].
Definition shelter : DocletCollection :=
  collection_of [animal; speak; dog; dog_static_speak; dog_instance_speak].
Definition dog_static_speak_inherited : Doclet :=
  doclet [("longname", VStr "Dog.speak"); ("memberof", VStr "Dog");
          ("name", VStr "speak"); ("kind", VStr "function");
          ("scope", VStr "static"); ("inherited", VBool true)].

(** ** Further vocabulary and examples *)

(** What the loop does for one candidate on its own, from empty lists; no
    contribution when the turn throws. *)
Definition resolved_alone (docletCollection : DocletCollection)
    (docletMap : gmap string Doclet) (target : Doclet) (options : Options)
    (docletToAdd : Doclet) : MissingDocletsData :=
  match resolve_member docletCollection docletMap target options
          {| newDoclets := []; docletsWhichShouldBeIgnored := [] |} docletToAdd with
  | Returns alone => alone
  | TypeError => {| newDoclets := []; docletsWhichShouldBeIgnored := [] |}
  end.

(** The key under which [createDocletMap] files a doclet. *)
Definition docletMap_key (doclet : Doclet) : string :=
  to_string (field doclet "longname").

(** The same options, without the filter. *)
Definition without_filter (options : Options) : Options :=
  {| Options.relation := Options.relation options;
     Options.filter := None;
     Options.onlyImplicitlyInherited := Options.onlyImplicitlyInherited options |}.

(** [Dog] documents [speak] itself, once and without [@inheritdoc]. *)
Definition dog_own_speak : Doclet :=
  doclet [("longname", VStr "Dog#speak"); ("memberof", VStr "Dog");
          ("name", VStr "speak"); ("kind", VStr "function");
          ("description", VStr "Woof.")].
Definition farm : DocletCollection := collection_of [animal; speak; dog; dog_own_speak].

Definition only_implicit : Options :=
  {| Options.relation := augmentsNested;
     Options.filter := None;
     Options.onlyImplicitlyInherited := VBool true |}.

(** The interface reaches [Parrot] through a class only. *)
Definition speaker_via_class : Doclet :=
  doclet [("longname", VStr "Speaker"); ("name", VStr "Speaker");
          ("kind", VStr "interface"); ("descendants", VArr [VStr "Bird"; VStr "Parrot"])].
Definition aviary_via_class : DocletCollection :=
  collection_of [speaker_via_class; bird; talk; parrot].

(** ** The release task

    The decisions [releaseSubRepositories]
    ([packages/ckeditor5-dev-env/lib/release-tools/tasks/releasesubrepositories.js])
    takes on the data it gets back from npm, GitHub and the [package.json]
    files.  The shell, the network and the file system stay outside: what
    they answered is an argument. *)

Module Release.

(** [s.replace( c, replacement )] for a one-character pattern: the first
    occurrence only.  The two replacements of the task, [''] and ['-'], have no
    [$] in them, so they are inserted as they are. *)
Fixpoint replace_first (c : ascii) (replacement s : string) : string :=
  match s with
  | EmptyString => EmptyString
  | String x rest =>
      if Ascii.eqb x c then replacement +:+ rest
      else String x (replace_first c replacement rest)
  end.

(** The name of the archive [npm pack] leaves behind:
    [packageJson.name.replace( '@', '' ).replace( '/', '-' ) +
    `-${ packageJson.version }.tgz`]. *)
Definition archiveName (packageJson : obj) : outcome string :=
  match field packageJson "name" with
  | VStr name =>
      Returns (replace_first "/" "-" (replace_first "@" "" name)
               +:+ "-" +:+ to_string (field packageJson "version") +:+ ".tgz")
  | _ => TypeError
  end.

(** [tag.replace( /^v/, '' )] *)
Definition strip_leading_v (tag : string) : string :=
  match tag with
  | String "v" rest => rest
  | _ => tag
  end.

(** The version of the latest release on GitHub, from [data.tag_name]
    ([null] when there is no release yet). *)
Definition githubVersion (tag_name : value) : outcome value :=
  if truthy tag_name then
    match tag_name with
    | VStr tag => Returns (VStr (strip_leading_v tag))
    | _ => TypeError
    end
  else Returns tag_name.

(** [releaseDetails.shouldReleaseOnGithub] *)
Definition shouldReleaseOnGithub (tag_name version : value) : outcome bool :=
  latest ← githubVersion tag_name ;
  Returns (negb (strict_eq latest version)).







(** A property of the [package.json] being written: a JSON value, or a
    built-in inherited from [Object.prototype] that was copied in. *)
Inductive slot : Type :=
  | Plain (v : value)
  | Builtin.

Definition slot_truthy (s : slot) : bool :=
  match s with
  | Plain v => truthy v
  | Builtin => true
  end.

(** [o[ k ]] for an arbitrary key. *)
Definition read (o : obj) (k : string) : slot :=
  match o !! k with
  | Some v => Plain v
  | None => if is_prototype_key k then Builtin else Plain VUndefined
  end.

(** [o[ k ] = v] for an arbitrary key: [__proto__] on an object without an own
    property of that name goes to the setter of [Object.prototype] and adds
    no property. *)
Definition assign (o : obj) (k : string) (v : value) : obj :=
  match o !! k with
  | Some _ => <[k := v]> o
  | None => if String.eqb k "__proto__" then o else <[k := v]> o
  end.

(** [options.packageJsonForEmptyReleases[ packageJson.name ] || {}]; the
    option is an object of objects, [None] when it was not passed. *)
Definition additionalPackageJson
    (packageJsonForEmptyReleases : option (gmap string obj)) (packageJson : obj)
  : outcome obj :=
  match packageJsonForEmptyReleases with
  | None => TypeError
  | Some custom =>
      Returns (default ∅ (custom !! to_string (field packageJson "name")))
  end.

(** The first loop: the custom values overwrite the template. *)
Definition overwrite (jsonFile additional : obj) : obj :=
  foldl (λ json (kv : string * value), assign json kv.1 kv.2)
        jsonFile (map_to_list additional).

(** One turn of the second loop, for an own property of [jsonFile]. *)
Definition copy_if_unset (packageJson : obj) (json : gmap string slot)
    (property : string) : gmap string slot :=
  match json !! property with
  | Some current =>
      if slot_truthy current then json
      else <[property := read packageJson property]> json
  | None => json
  end.

(** The callback given to [tools.updateJSONFile] for the [package.json] of an
    empty release; [jsonFile] is the template. *)
Definition updatePackageJson
    (packageJsonForEmptyReleases : option (gmap string obj))
    (packageJson jsonFile : obj) : outcome (gmap string slot) :=
  additional ← additionalPackageJson packageJsonForEmptyReleases packageJson ;
  let jsonFile := overwrite jsonFile additional in
  Returns (foldl (copy_if_unset packageJson) (Plain <$> jsonFile)
                 (map_to_list jsonFile).*1).

End Release.

(** A template, the custom fields of the task's example and the
    [package.json] of the package released as an empty directory. *)
Definition release_template : obj :=
  doclet [("name", VStr ""); ("version", VStr ""); ("description", VStr "");
          ("license", VStr "GPL-2.0-or-later")].
Definition custom_fields : gmap string obj :=
  {[ "ckeditor5" :=
       doclet [("description", VStr "Custom description");
               ("devDependencies", VNull); ("private", VBool false)] ]}.
Definition ckeditor5_package_json : obj :=
  doclet [("name", VStr "ckeditor5"); ("version", VStr "19.0.0");
          ("description", VStr "The development environment.");
          ("devDependencies", VObj [("eslint", VStr "^5.5.0")]);
          ("private", VBool true); ("scripts", VObj [])].
Definition dev_env_package_json : obj :=
  doclet [("name", VStr "@ckeditor/ckeditor5-dev-env"); ("version", VStr "19.0.0")].

(** * Properties *)

(** ** Sequences: [lastIndexOf], [indexOf] and [slice] *)

Section sequences.
Context {A : Type} (p : A → bool).

Lemma lastIndexOf_from_app (l1 l2 : list A) (i acc : Z) :
  lastIndexOf_from p (l1 ++ l2) i acc
  = lastIndexOf_from p l2 (i + Z.of_nat (length l1)) (lastIndexOf_from p l1 i acc).
Proof.
  revert i acc. induction l1 as [|x l1 IH]; intros i acc; simpl.
  - by rewrite Z.add_0_r.
  - rewrite IH. f_equal. lia.
Qed.

Lemma lastIndexOf_from_none (l : list A) (i acc : Z) :
  (∀ x, x ∈ l → p x = false) → lastIndexOf_from p l i acc = acc.
Proof.
  revert i acc. induction l as [|x l IH]; intros i acc Hl; simpl; [done|].
  rewrite (Hl x) by left. apply IH. intros y Hy. apply Hl. by right.
Qed.

Lemma lastIndexOf_from_range (l : list A) (i acc : Z) :
  lastIndexOf_from p l i acc = acc
  ∨ i ≤ lastIndexOf_from p l i acc < i + Z.of_nat (length l).
Proof.
  revert i acc. induction l as [|x l IH]; intros i acc; [by left|].
  cbn [lastIndexOf_from length].
  destruct (IH (i + 1) (if p x then i else acc)) as [-> | ?]; [|right; lia].
  destruct (p x); [right; lia | by left].
Qed.

(** The last hit is where the list splits into a prefix, a hit and a
    hit-free rest. *)
Lemma lastIndexOf_split (l1 l2 : list A) (x : A) :
  p x = true → (∀ y, y ∈ l2 → p y = false) →
  lastIndexOf p (l1 ++ x :: l2) = Z.of_nat (length l1).
Proof.
  intros Hx Hl2. unfold lastIndexOf.
  rewrite lastIndexOf_from_app. cbn [lastIndexOf_from]. rewrite Hx.
  by rewrite lastIndexOf_from_none.
Qed.

(** A miss followed by a hit-free rest leaves the answer inside the prefix. *)
Lemma lastIndexOf_before (l1 l2 : list A) (x : A) :
  p x = false → (∀ y, y ∈ l2 → p y = false) →
  -1 ≤ lastIndexOf p (l1 ++ x :: l2) < Z.of_nat (length l1).
Proof.
  intros Hx Hl2. unfold lastIndexOf.
  rewrite lastIndexOf_from_app. cbn [lastIndexOf_from]. rewrite Hx.
  rewrite lastIndexOf_from_none by done.
  destruct (lastIndexOf_from_range l1 0 (-1)) as [-> | ?]; lia.
Qed.


Lemma indexOf_from_found (l : list A) (i : Z) :
  0 ≤ i → indexOf_from p l i ≠ -1 ↔ ∃ x, x ∈ l ∧ p x = true.
Proof.
  revert i. induction l as [|x l IH]; intros i Hi; simpl.
  - split; [done|]. intros (x & Hx & _). by apply elem_of_nil in Hx.
  - destruct (p x) eqn:Hpx.
    + split; [|lia]. intros _. exists x. split; [left|done].
    + rewrite IH by lia. split; intros (y & Hy & Hpy).
      * exists y. split; [by right|done].
      * apply elem_of_cons in Hy as [->|Hy]; [congruence|]. by exists y.
Qed.

Lemma slice_split (l1 l2 : list A) :
  slice (Z.of_nat (length l1)) (l1 ++ l2) = l2.
Proof.
  unfold slice. rewrite length_app, Nat2Z.inj_add.
  destruct (Z.ltb_spec (Z.of_nat (length l1)) 0) as [?|_]; [lia|].
  rewrite Z.min_l by lia. rewrite Nat2Z.id. by rewrite drop_app_length.
Qed.


End sequences.

Lemma list_ascii_of_string_app (s1 s2 : string) :
  list_ascii_of_string (s1 +:+ s2) = list_ascii_of_string s1 ++ list_ascii_of_string s2.
Proof. induction s1 as [|c s1 IH]; simpl; [done|]. by rewrite IH. Qed.

Lemma ascii_eqb_miss (c : ascii) (l : list ascii) :
  c ∉ l → ∀ x, x ∈ l → Ascii.eqb c x = false.
Proof. intros Hc x Hx. apply Ascii.eqb_neq. intros ->. done. Qed.

(** ** The new longname *)

(** The relation property only ever names the fields [inherited], [mixed] or
    [null]; every other field of the clone is read below the tag. *)
Lemma clonedDoclet_tag (docletToAdd target : Doclet) (longname rp : value) :
  rp = VStr "inherited" ∨ rp = VStr "mixed" ∨ rp = VNull →
  ∀ k, k ≠ "inherited" → k ≠ "mixed" →
    clonedDoclet docletToAdd target longname rp !! k
    = <["memberof" := field target "longname"]> (<["longname" := longname]> docletToAdd) !! k.
Proof.
  intros Hrp k Hi Hm. unfold clonedDoclet, set, cloneDeep.
  destruct Hrp as [-> | [-> | ->]]; simpl; [| |done];
    by rewrite lookup_insert_ne.
Qed.

Lemma getRelationProperty_range (docletMap : gmap string Doclet)
    (child member : Doclet) (relation : Relation) (rp : value) :
  getRelationProperty docletMap child member relation = Returns rp →
  rp = VStr "inherited" ∨ rp = VStr "mixed" ∨ rp = VNull.
Proof.
  unfold getRelationProperty. destruct relation.
  - intros [= <-]. by left.
  - intros [= <-]. right. by left.
  - destruct (docletMap_read _ _); [|done].
    destruct (if isNonEmptyArray _ then _ else _) as [[] []];
      intros [= <-]; auto.
Qed.




(** With [sep] the last separator of the longname of the candidate, the new
    longname is the longname of the target followed by [sep ++ name]. *)
Lemma getLongnameForNewDoclet_last_separator (docletToAdd target : Doclet)
    (pre name t : string) (sep : ascii) :
  field docletToAdd "longname" = VStr (pre +:+ String sep name) →
  field target "longname" = VStr t →
  sep = "."%char ∨ sep = "#"%char →
  "."%char ∉ list_ascii_of_string name →
  "#"%char ∉ list_ascii_of_string name →
  getLongnameForNewDoclet docletToAdd target
  = Returns (VStr (t +:+ String sep name)).
Proof.
  intros Hs Ht Hsep Hdot Hhash.
  unfold getLongnameForNewDoclet. rewrite Hs, Ht. cbn [to_string].
  unfold str_lastIndexOf, str_slice.
  rewrite list_ascii_of_string_app. cbn [list_ascii_of_string].
  set (l1 := list_ascii_of_string pre). set (l2 := list_ascii_of_string name).
  assert (Z.max (lastIndexOf (Ascii.eqb ".") (l1 ++ sep :: l2))
                (lastIndexOf (Ascii.eqb "#") (l1 ++ sep :: l2))
          = Z.of_nat (length l1)) as ->.
  { destruct Hsep as [-> | ->].
    - rewrite (lastIndexOf_split (Ascii.eqb ".")); [|done|by apply ascii_eqb_miss].
      pose proof (lastIndexOf_before (Ascii.eqb "#") l1 l2 "."%char eq_refl
                    (ascii_eqb_miss _ _ Hhash)). lia.
    - rewrite (lastIndexOf_split (Ascii.eqb "#")); [|done|by apply ascii_eqb_miss].
      pose proof (lastIndexOf_before (Ascii.eqb ".") l1 l2 "#"%char eq_refl
                    (ascii_eqb_miss _ _ Hdot)). lia. }
  rewrite slice_split. subst l2. cbn [string_of_list_ascii].
  by rewrite string_of_list_ascii_of_string.
Qed.

(** ** The candidates *)

Lemma strict_eq_str (v : value) (s : string) :
  strict_eq v (VStr s) = true ↔ v = VStr s.
Proof.
  destruct v; simpl; try (split; [discriminate|intros [=]]).
  rewrite String.eqb_eq. split; [by intros ->|by intros [=]].
Qed.

Lemma shouldDocletBeAdded_spec (options : Options) (doclet : Doclet) :
  shouldDocletBeAdded options doclet = true ↔
    truthy (field doclet "ignore") = false
    ∧ truthy (field doclet "undocumented") = false
    ∧ is_string (field doclet "inheritdoc") = false
    ∧ ∀ key expected,
        default ∅ (Options.filter options) !! key = Some expected →
        prop_strict_neq doclet key expected = false.
Proof.
  unfold shouldDocletBeAdded.
  destruct (truthy (field doclet "ignore")); simpl;
    [split; [done|by intros (? & _)]|].
  destruct (truthy (field doclet "undocumented")); simpl;
    [split; [done|by intros (_ & ? & _)]|].
  destruct (is_string (field doclet "inheritdoc")); simpl;
    [split; [done|by intros (_ & _ & ? & _)]|].
  rewrite forallb_forall. split.
  - intros H. repeat split. intros key expected Hk.
    apply negb_true_iff, (H (key, expected)), list_elem_of_In.
    by apply elem_of_map_to_list.
  - intros (_ & _ & _ & H) [key expected] Hin. apply negb_true_iff, H.
    by apply elem_of_map_to_list, list_elem_of_In.
Qed.

Lemma elem_of_fold_append {A B : Type} (f : A → list B) (l : list A)
    (init : list B) (x : B) :
  x ∈ fold_left (λ acc a, acc ++ f a) l init
  ↔ x ∈ init ∨ ∃ a, a ∈ l ∧ x ∈ f a.
Proof.
  revert init. induction l as [|a l IH]; intros init; simpl.
  - split; [by left|]. intros [?|(a & Ha & _)]; [done|]. by apply elem_of_nil in Ha.
  - rewrite IH, elem_of_app. split.
    + intros [[?|?]|(b & Hb & ?)]; [by left| |].
      * right. exists a. split; [left|done].
      * right. exists b. split; [by right|done].
    + intros [?|(b & Hb & ?)]; [by left; left|].
      apply elem_of_cons in Hb as [->|Hb]; [by left; right|].
      right. by exists b.
Qed.

Lemma elem_of_getDocletsToAdd (docletCollection : DocletCollection)
    (childDoclet : Doclet) (options : Options) (ancestors : list value)
    (doclet : Doclet) :
  ancestors_of childDoclet options = Returns ancestors →
  ∃ docletsToAdd,
    getDocletsToAdd docletCollection childDoclet options = Returns docletsToAdd
    ∧ (doclet ∈ docletsToAdd ↔
         shouldDocletBeAdded options doclet = true
         ∧ ∃ longname, longname ∈ ancestors
             ∧ doclet ∈ DocletCollection.get docletCollection
                          (memberof_category longname)).
Proof.
  intros Ha. unfold getDocletsToAdd. rewrite Ha. simpl.
  eexists. split; [done|]. rewrite elem_of_fold_append. split.
  - intros [H|(a & Hin & H)]; [by apply elem_of_nil in H|].
    apply list_elem_of_In, filter_In in H as [H ?].
    split; [done|]. exists a. split; [done|]. by apply list_elem_of_In.
  - intros (Hok & a & Hin & H). right. exists a. split; [done|].
    apply list_elem_of_In, filter_In. split; [|done]. by apply list_elem_of_In.
Qed.

(** C4 (amended): a member of an ancestor listed in the relation array of the
    target is kept as a candidate if and only if [ignore] is falsy,
    [undocumented] is falsy, [inheritdoc] is not a string (empty or not), and
    every key of [options.filter] holds, on the member, a value [===] to the
    one in the filter. *)
Theorem candidate_kept_iff (docletCollection : DocletCollection)
    (childDoclet : Doclet) (options : Options) (ancestors : list value)
    (ancestor : value) (member : Doclet) :
  ancestors_of childDoclet options = Returns ancestors →
  ancestor ∈ ancestors →
  member ∈ DocletCollection.get docletCollection (memberof_category ancestor) →
  ∃ docletsToAdd,
    getDocletsToAdd docletCollection childDoclet options = Returns docletsToAdd
    ∧ (member ∈ docletsToAdd ↔
         truthy (field member "ignore") = false
         ∧ truthy (field member "undocumented") = false
         ∧ (∀ pointer, field member "inheritdoc" ≠ VStr pointer)
         ∧ ∀ key expected,
             default ∅ (Options.filter options) !! key = Some expected →
             prop_strict_neq member key expected = false).
Proof.
  intros Ha Hin Hmem.
  destruct (elem_of_getDocletsToAdd docletCollection childDoclet options
              ancestors member Ha) as (l & Hl & Hiff).
  exists l. split; [done|]. rewrite Hiff, shouldDocletBeAdded_spec.
  assert (is_string (field member "inheritdoc") = false
          ↔ ∀ pointer, field member "inheritdoc" ≠ VStr pointer) as ->.
  { destruct (field member "inheritdoc"); simpl; split; try done.
    intros H. by destruct (H s). }
  split; [by intros [? _]|]. intros H. split; [done|]. by exists ancestor.
Qed.

(** [Animal.create] under the filter [{ scope: 'static' }]. *)
Lemma candidate_kept_iff_witness :
  ∃ docletsToAdd,
    getDocletsToAdd zoo dog static_only = Returns docletsToAdd
    ∧ (create ∈ docletsToAdd ↔
         truthy (field create "ignore") = false
         ∧ truthy (field create "undocumented") = false
         ∧ (∀ pointer, field create "inheritdoc" ≠ VStr pointer)
         ∧ ∀ key expected,
             default ∅ (Options.filter static_only) !! key = Some expected →
             prop_strict_neq create key expected = false).
Proof.
  apply (candidate_kept_iff zoo dog static_only [VStr "Animal"] (VStr "Animal") create);
    [reflexivity | left | apply list_elem_of_In; vm_compute; tauto].
Defined.

(** Against C4 as stated: [Animal#legacy] has the empty [inheritdoc] of a bare
    [@inheritdoc] tag; it passes the condition as the specification words it,
    and is not a candidate. *)
Lemma empty_inheritdoc_is_dropped :
  ancestors_of dog (options_for augmentsNested) = Returns [VStr "Animal"]
  ∧ legacy ∈ DocletCollection.get zoo (memberof_category (VStr "Animal"))
  ∧ getDocletsToAdd zoo dog (options_for augmentsNested) = Returns [speak; create]
  ∧ ¬ (legacy ∈ [speak; create] ↔ claimed_candidate (options_for augmentsNested) legacy).
Proof.
  split; [reflexivity|]. split; [apply list_elem_of_In; vm_compute; tauto|].
  split; [vm_compute; reflexivity|]. intros [_ Hkept].
  assert (legacy ∈ [speak; create]) as Hin.
  { apply Hkept. split; [reflexivity|]. split; [reflexivity|].
    split; [by intros pointer [= <-]|]. intros key expected Hk.
    change (default ∅ _) with (∅ : gmap string value) in Hk.
    by rewrite lookup_empty in Hk. }
  apply elem_of_cons in Hin as [Heq|Hin];
    [|apply list_elem_of_singleton in Hin as Heq];
    apply (f_equal (λ d : Doclet, d !! "inheritdoc")) in Heq; by vm_compute in Heq.
Qed.

(** ** The relation property *)

(** C6: for [augmentsNested] the relation property is ['inherited'] and for
    [mixesNested] it is ['mixed'], whatever the doclet map, the target and the
    member are: no [descendants] list is read. *)
Theorem extends_and_mixes_tags (docletMap : gmap string Doclet)
    (childDoclet memberDoclet : Doclet) :
  getRelationProperty docletMap childDoclet memberDoclet augmentsNested
    = Returns (VStr "inherited")
  ∧ getRelationProperty docletMap childDoclet memberDoclet mixesNested
    = Returns (VStr "mixed").
Proof. split; reflexivity. Qed.

(** For [implementsNested] the scan of [memberDocletParent.descendants] is
    two independent searches, one per kind. *)
Lemma descendants_include_spec (doclet : Doclet) (longname : value) :
  descendants_include doclet longname = true
  ↔ ∃ x, x ∈ elements_of (field doclet "descendants")
         ∧ strict_eq x longname = true.
Proof.
  unfold descendants_include.
  destruct (field doclet "descendants") as [| | | | |[|y l]|]; simpl;
    try (split; [discriminate|]; intros (x & Hx & _); by apply elem_of_nil in Hx).
  rewrite negb_true_iff, Z.eqb_neq. unfold indexOf.
  by rewrite (indexOf_from_found (λ x, strict_eq x longname) (y :: l) 0).
Qed.

Lemma descendant_hit_spec (docletMap : gmap string Doclet)
    (parent target : Doclet) (kind : string) :
  existsb (descendant_hit docletMap target kind)
          (elements_of (field parent "descendants")) = true
  ↔ has_descendant_of_kind docletMap parent target kind.
Proof.
  rewrite existsb_exists. unfold has_descendant_of_kind, descendant_hit. split.
  - intros (x & Hx & Hhit). apply list_elem_of_In in Hx.
    destruct (docletMap_read docletMap (to_string x)) as [d|] eqn:Hd; [|done].
    apply andb_true_iff in Hhit as [Hk Hi].
    exists x, d. split; [done|]. split; [done|].
    split; [by apply strict_eq_str|]. by apply descendants_include_spec.
  - intros (x & d & Hx & Hd & Hk & Hi). exists x.
    split; [by apply list_elem_of_In|]. rewrite Hd, Hk.
    apply andb_true_iff. split; [by apply strict_eq_str|].
    by apply descendants_include_spec.
Qed.

Lemma scan_descendants_fold (docletMap : gmap string Doclet) (target : Doclet)
    (l : list value) (isInherited isMixed : bool) :
  fold_left (scan_descendant docletMap target) l (isInherited, isMixed)
  = (isInherited || existsb (descendant_hit docletMap target "class") l,
     isMixed || existsb (descendant_hit docletMap target "mixin") l).
Proof.
  revert isInherited isMixed. induction l as [|x l IH]; intros i m; simpl.
  - by rewrite !orb_false_r.
  - unfold descendant_hit at 1 3.
    destruct (docletMap_read docletMap (to_string x)) as [d|]; [|by rewrite IH].
    destruct (strict_eq (field d "kind") (VStr "mixin")) eqn:Hm.
    + apply strict_eq_str in Hm. rewrite Hm. simpl.
      destruct (descendants_include d (field target "longname"));
        rewrite IH; simpl; by rewrite ?orb_true_r.
    + simpl. destruct (strict_eq (field d "kind") (VStr "class")); simpl.
      * destruct (descendants_include d (field target "longname"));
          rewrite IH; simpl; by rewrite ?orb_true_r.
      * by rewrite IH.
Qed.

Lemma getRelationProperty_implements (docletMap : gmap string Doclet)
    (childDoclet memberDoclet parent : Doclet) :
  docletMap_read docletMap (to_string (field memberDoclet "memberof")) = Some parent →
  let hit kind :=
    existsb (descendant_hit docletMap childDoclet kind)
            (elements_of (field parent "descendants")) in
  getRelationProperty docletMap childDoclet memberDoclet implementsNested
  = Returns (if hit "mixin" then VStr "mixed"
             else if hit "class" then VStr "inherited"
             else VNull).
Proof.
  intros Hp hit. subst hit. unfold getRelationProperty. rewrite Hp.
  destruct (isNonEmptyArray (field parent "descendants")) eqn:Hne.
  - by rewrite scan_descendants_fold.
  - by destruct (field parent "descendants") as [| | | | |[|y l]|].
Qed.

(** C7: for [implementsNested], with [parent] the doclet the map holds for the
    [memberof] of the member: if [parent] has a mixin descendant whose
    descendants include the longname of the target and also a class descendant
    whose descendants include it, the relation property is ['mixed']; if it
    has neither, the relation property is [null]. *)
Theorem implements_tag (docletMap : gmap string Doclet)
    (childDoclet memberDoclet parent : Doclet) :
  docletMap_read docletMap (to_string (field memberDoclet "memberof")) = Some parent →
  (has_descendant_of_kind docletMap parent childDoclet "mixin" →
   has_descendant_of_kind docletMap parent childDoclet "class" →
   getRelationProperty docletMap childDoclet memberDoclet implementsNested
   = Returns (VStr "mixed"))
  ∧ (¬ has_descendant_of_kind docletMap parent childDoclet "mixin" →
     ¬ has_descendant_of_kind docletMap parent childDoclet "class" →
     getRelationProperty docletMap childDoclet memberDoclet implementsNested
     = Returns VNull).
Proof.
  intros Hp. rewrite (getRelationProperty_implements _ _ _ _ Hp).
  rewrite <- !descendant_hit_spec. split.
  - by intros -> _.
  - by intros ->%not_true_is_false ->%not_true_is_false.
Qed.

(** Both cases: a mixin and a class on the way to [Parrot], and no
    descendants at all. *)
Lemma implements_tag_witness :
  getRelationProperty (createDocletMap aviary_with_descendants) parrot talk
    implementsNested = Returns (VStr "mixed")
  ∧ getRelationProperty (createDocletMap aviary) parrot talk implementsNested
    = Returns VNull.
Proof.
  split.
  - apply (implements_tag (createDocletMap aviary_with_descendants) parrot talk
             speaker_with_descendants);
      [vm_compute; reflexivity
      | apply descendant_hit_spec; vm_compute; reflexivity
      | apply descendant_hit_spec; vm_compute; reflexivity].
  - apply (implements_tag (createDocletMap aviary) parrot talk speaker);
      [vm_compute; reflexivity
      | rewrite <- descendant_hit_spec; vm_compute; discriminate
      | rewrite <- descendant_hit_spec; vm_compute; discriminate].
Defined.

(** ** One turn of the loop *)

Section resolve_member.
Context (docletCollection : DocletCollection) (docletMap : gmap string Doclet).
Context (target : Doclet) (options : Options).
Context (docletToAdd : Doclet) (longname relationProperty : value).
Hypothesis Hlongname :
  getLongnameForNewDoclet docletToAdd target = Returns longname.
Hypothesis Hrelation :
  getRelationProperty docletMap target docletToAdd (Options.relation options)
  = Returns relationProperty.

Lemma clonedDoclet_field (k : string) :
  k ≠ "longname" → k ≠ "memberof" → k ≠ "inherited" → k ≠ "mixed" →
  clonedDoclet docletToAdd target longname relationProperty !! k
  = docletToAdd !! k.
Proof.
  intros.
  rewrite clonedDoclet_tag by (done || by eapply getRelationProperty_range).
  by rewrite !lookup_insert_ne.
Qed.

Lemma clonedDoclet_memberof :
  clonedDoclet docletToAdd target longname relationProperty !! "memberof"
  = Some (field target "longname").
Proof.
  rewrite clonedDoclet_tag by (done || by eapply getRelationProperty_range).
  by rewrite lookup_insert_eq.
Qed.

Lemma docletsOfSameMember_cloned :
  docletsOfSameMember docletCollection
    (clonedDoclet docletToAdd target longname relationProperty)
  = siblings_of_same_member docletCollection target docletToAdd.
Proof.
  unfold docletsOfSameMember, siblings_of_same_member, same_member, field.
  by rewrite clonedDoclet_memberof, !clonedDoclet_field.
Qed.

(** The loop body, once the two calls that may throw have returned. *)
Lemma resolve_member_returns (acc : MissingDocletsData) :
  resolve_member docletCollection docletMap target options acc docletToAdd
  = match siblings_of_same_member docletCollection target docletToAdd with
    | [] =>
        Returns {| newDoclets :=
                     newDoclets acc
                     ++ [clonedDoclet docletToAdd target longname relationProperty];
                   docletsWhichShouldBeIgnored := docletsWhichShouldBeIgnored acc |}
    | first :: others =>
        if doAllParentsExplicitlyInherit (first :: others)
           && negb (truthy (Options.onlyImplicitlyInherited options))
        then
          Returns {| newDoclets :=
                       newDoclets acc
                       ++ [clonedDoclet docletToAdd target longname relationProperty];
                     docletsWhichShouldBeIgnored :=
                       docletsWhichShouldBeIgnored acc ++ first :: others |}
        else
          match others with
          | [] => Returns acc
          | _ :: _ =>
              Returns {| newDoclets :=
                           newDoclets acc ++ [correctDoclet first relationProperty];
                         docletsWhichShouldBeIgnored :=
                           docletsWhichShouldBeIgnored acc ++ first :: others |}
          end
    end.
Proof.
  unfold resolve_member. rewrite Hlongname, Hrelation. cbn [mbind outcome_bind].
  rewrite docletsOfSameMember_cloned.
  destruct (siblings_of_same_member _ _ _) as [|first [|second others]]; [done| |].
  - by destruct (_ && _).
  - destruct (_ && _); [done|].
    destruct (Z.leb_spec 2 (Z.of_nat (length (first :: second :: others))));
      [done|]. cbn [length] in *. lia.
Qed.

End resolve_member.

(** ** The loop *)

Lemma for_of_app {S A} (body : S → A → outcome S) (l1 l2 : list A) (s : S) :
  for_of body (l1 ++ l2) s = s1 ← for_of body l1 s; for_of body l2 s1.
Proof.
  revert s. induction l1 as [|x l1 IH]; intros s; simpl; [done|].
  destruct (body s x); simpl; [apply IH|done].
Qed.

Lemma for_of_invariant {S A} (body : S → A → outcome S) (P : S → Prop)
    (l : list A) (s s' : S) :
  for_of body l s = Returns s' →
  P s →
  (∀ s0 x s1, x ∈ l → P s0 → body s0 x = Returns s1 → P s1) →
  P s'.
Proof.
  revert s. induction l as [|x l IH]; intros s Hrun Hs Hstep; simpl in Hrun.
  - by injection Hrun as <-.
  - destruct (body s x) as [s1|] eqn:Hx; [|done]. simpl in Hrun.
    apply (IH s1 Hrun).
    + apply (Hstep s x); [left|done..].
    + intros s0 y s2 Hy. apply Hstep. by right.
Qed.

Lemma for_of_total {S A} (body : S → A → outcome S) (l : list A) (s : S) :
  (∀ s0 x, x ∈ l → ∃ s1, body s0 x = Returns s1) →
  ∃ s', for_of body l s = Returns s'.
Proof.
  revert s. induction l as [|x l IH]; intros s Hstep; simpl; [by eexists|].
  destruct (Hstep s x) as [s1 ->]; [left|]. simpl.
  apply IH. intros s0 y Hy. apply Hstep. by right.
Qed.

(** What one turn of the loop can do to the two result lists. *)
Lemma resolve_member_effect (docletCollection : DocletCollection)
    (docletMap : gmap string Doclet) (target : Doclet) (options : Options)
    (acc acc' : MissingDocletsData) (docletToAdd : Doclet) :
  resolve_member docletCollection docletMap target options acc docletToAdd
  = Returns acc' →
  ∃ longname relationProperty,
    getLongnameForNewDoclet docletToAdd target = Returns longname
    ∧ getRelationProperty docletMap target docletToAdd (Options.relation options)
      = Returns relationProperty
    ∧ (newDoclets acc' = newDoclets acc
       ∨ newDoclets acc'
         = newDoclets acc
           ++ [clonedDoclet docletToAdd target longname relationProperty]
       ∨ ∃ first,
           first ∈ siblings_of_same_member docletCollection target docletToAdd
           ∧ newDoclets acc'
             = newDoclets acc ++ [correctDoclet first relationProperty]).
Proof.
  intros Hrun.
  destruct (getLongnameForNewDoclet docletToAdd target) as [ln|] eqn:Hln;
    [|by unfold resolve_member in Hrun; rewrite Hln in Hrun].
  destruct (getRelationProperty docletMap target docletToAdd
              (Options.relation options)) as [rp|] eqn:Hrp;
    [|by unfold resolve_member in Hrun; rewrite Hln, Hrp in Hrun].
  exists ln, rp. split; [done|]. split; [done|].
  rewrite (resolve_member_returns _ _ _ _ _ _ _ Hln Hrp) in Hrun.
  destruct (siblings_of_same_member _ _ _) as [|first [|second others]].
  - injection Hrun as <-. right. by left.
  - destruct (_ && _); injection Hrun as <-; [right|]; by left.
  - destruct (_ && _); injection Hrun as <-; right; [by left|].
    right. exists first. split; [left|done].
Qed.

Lemma resolve_member_grows (docletCollection : DocletCollection)
    (docletMap : gmap string Doclet) (target : Doclet) (options : Options)
    (acc acc' : MissingDocletsData) (docletToAdd : Doclet) :
  resolve_member docletCollection docletMap target options acc docletToAdd
  = Returns acc' →
  ∀ e, e ∈ newDoclets acc → e ∈ newDoclets acc'.
Proof.
  intros (ln & rp & _ & _ & [-> |[-> |(first & _ & ->)]])%resolve_member_effect e He;
    [done|apply elem_of_app; by left..].
Qed.

(** The tag lands on exactly the key it names and nowhere else. *)
Lemma tagged_lookup (base : Doclet) (relationProperty : value) (k : string) :
  relationProperty = VStr "inherited" ∨ relationProperty = VStr "mixed"
  ∨ relationProperty = VNull →
  k = "inherited" ∨ k = "mixed" →
  <[to_string relationProperty := VBool true]> base !! k
  = if strict_eq relationProperty (VStr k) then Some (VBool true) else base !! k.
Proof.
  intros [-> |[-> | ->]] [-> | ->]; simpl;
    by rewrite ?lookup_insert_eq, ?lookup_insert_ne.
Qed.

Lemma clonedDoclet_relation_field (docletToAdd target : Doclet)
    (longname relationProperty : value) (k : string) :
  relationProperty = VStr "inherited" ∨ relationProperty = VStr "mixed"
  ∨ relationProperty = VNull →
  k = "inherited" ∨ k = "mixed" →
  clonedDoclet docletToAdd target longname relationProperty !! k
  = if strict_eq relationProperty (VStr k) then Some (VBool true)
    else docletToAdd !! k.
Proof.
  intros Hrp Hk. unfold clonedDoclet, set, cloneDeep.
  destruct (truthy relationProperty) eqn:Ht.
  - rewrite (tagged_lookup _ _ k) by done.
    destruct (strict_eq _ _); [done|].
    destruct Hk as [-> | ->]; by rewrite !lookup_insert_ne.
  - destruct Hrp as [-> |[-> | ->]]; try done.
    destruct Hk as [-> | ->]; by rewrite !lookup_insert_ne.
Qed.

Lemma correctDoclet_relation_field (sibling : Doclet)
    (relationProperty : value) (k : string) :
  relationProperty = VStr "inherited" ∨ relationProperty = VStr "mixed"
  ∨ relationProperty = VNull →
  k = "inherited" ∨ k = "mixed" →
  correctDoclet sibling relationProperty !! k
  = if strict_eq relationProperty (VStr k) then Some (VBool true)
    else sibling !! k.
Proof. intros. unfold correctDoclet, set, cloneDeep. by apply tagged_lookup. Qed.

Lemma siblings_nil (docletCollection : DocletCollection)
    (target candidate : Doclet) :
  (∀ d, d ∈ DocletCollection.get docletCollection
              (memberof_category (field target "longname")) →
        same_member candidate d = false) →
  siblings_of_same_member docletCollection target candidate = [].
Proof.
  intros H. unfold siblings_of_same_member.
  induction (DocletCollection.get _ _) as [|d l IH]; simpl; [done|].
  rewrite (H d) by left. apply IH. intros d' Hd'. apply H. by right.
Qed.

(** C8: when no doclet stored under the target has the name and the kind of
    the candidate, the turn of the loop for that candidate appends its clone
    to [newDoclets] and leaves [docletsWhichShouldBeIgnored] as it was; the
    [memberof] of the clone is the longname of the target, and the clone is in
    the [newDoclets] the whole call returns. *)
Theorem new_member_is_added (docletCollection : DocletCollection)
    (target : Doclet) (options : Options) (docletToAdd : Doclet)
    (longname relationProperty : value) :
  let docletMap := createDocletMap docletCollection in
  getLongnameForNewDoclet docletToAdd target = Returns longname →
  getRelationProperty docletMap target docletToAdd (Options.relation options)
    = Returns relationProperty →
  (∀ d, d ∈ DocletCollection.get docletCollection
              (memberof_category (field target "longname")) →
        same_member docletToAdd d = false) →
  let cloned := clonedDoclet docletToAdd target longname relationProperty in
  cloned !! "memberof" = Some (field target "longname")
  ∧ (∀ acc,
       resolve_member docletCollection docletMap target options acc docletToAdd
       = Returns {| newDoclets := newDoclets acc ++ [cloned];
                    docletsWhichShouldBeIgnored := docletsWhichShouldBeIgnored acc |})
  ∧ ∀ docletsToAdd result,
      getDocletsToAdd docletCollection target options = Returns docletsToAdd →
      docletToAdd ∈ docletsToAdd →
      getMissingDocletsData docletCollection target options = Returns result →
      cloned ∈ newDoclets result.
Proof.
  intros docletMap Hln Hrp Hnone cloned.
  assert (∀ acc,
    resolve_member docletCollection docletMap target options acc docletToAdd
    = Returns {| newDoclets := newDoclets acc ++ [cloned];
                 docletsWhichShouldBeIgnored := docletsWhichShouldBeIgnored acc |})
    as Hstep.
  { intros acc. rewrite (resolve_member_returns _ _ _ _ _ _ _ Hln Hrp).
    by rewrite siblings_nil. }
  split; [by eapply clonedDoclet_memberof|]. split; [done|].
  intros docletsToAdd result Hcands Hin Hrun.
  unfold getMissingDocletsData in Hrun. rewrite Hcands in Hrun.
  cbn [mbind outcome_bind] in Hrun. fold docletMap in Hrun.
  apply list_elem_of_split in Hin as (l1 & l2 & ->).
  rewrite for_of_app in Hrun.
  destruct (for_of _ l1 _) as [s1|]; [|done].
  cbn [mbind outcome_bind for_of] in Hrun. rewrite Hstep in Hrun.
  cbn [mbind outcome_bind] in Hrun.
  eapply (for_of_invariant _ (λ s, cloned ∈ newDoclets s)); [exact Hrun| |].
  - simpl. apply elem_of_app. right. left.
  - intros s0 x s2 _ Hs0 Hx. by eapply resolve_member_grows.
Qed.

(** [Dog] has no [speak] of its own. *)
Lemma new_member_is_added_witness :
  let cloned := clonedDoclet speak dog (VStr "Dog#speak") (VStr "inherited") in
  cloned !! "memberof" = Some (field dog "longname")
  ∧ (∀ acc,
       resolve_member zoo (createDocletMap zoo) dog (options_for augmentsNested)
         acc speak
       = Returns {| newDoclets := newDoclets acc ++ [cloned];
                    docletsWhichShouldBeIgnored := docletsWhichShouldBeIgnored acc |})
  ∧ ∀ docletsToAdd result,
      getDocletsToAdd zoo dog (options_for augmentsNested) = Returns docletsToAdd →
      speak ∈ docletsToAdd →
      getMissingDocletsData zoo dog (options_for augmentsNested) = Returns result →
      cloned ∈ newDoclets result.
Proof.
  apply (new_member_is_added zoo dog (options_for augmentsNested) speak
           (VStr "Dog#speak") (VStr "inherited"));
    [reflexivity | reflexivity |].
  intros d Hd. vm_compute in Hd. by apply elem_of_nil in Hd.
Defined.

(** C9: when exactly two doclets stored under the target have the name and the
    kind of the candidate, each of them has [inheritdoc] or [overrides]
    defined, and [options.onlyImplicitlyInherited] is falsy, the turn of the
    loop for that candidate appends both of them to
    [docletsWhichShouldBeIgnored] and exactly one doclet, the clone of the
    candidate, to [newDoclets]. *)
Theorem explicit_siblings_are_suppressed (docletCollection : DocletCollection)
    (docletMap : gmap string Doclet) (target : Doclet) (options : Options)
    (acc : MissingDocletsData) (docletToAdd : Doclet)
    (longname relationProperty : value) (sibling1 sibling2 : Doclet) :
  getLongnameForNewDoclet docletToAdd target = Returns longname →
  getRelationProperty docletMap target docletToAdd (Options.relation options)
    = Returns relationProperty →
  siblings_of_same_member docletCollection target docletToAdd
    = [sibling1; sibling2] →
  (field sibling1 "inheritdoc" ≠ VUndefined ∨ field sibling1 "overrides" ≠ VUndefined) →
  (field sibling2 "inheritdoc" ≠ VUndefined ∨ field sibling2 "overrides" ≠ VUndefined) →
  truthy (Options.onlyImplicitlyInherited options) = false →
  resolve_member docletCollection docletMap target options acc docletToAdd
  = Returns
      {| newDoclets :=
           newDoclets acc
           ++ [clonedDoclet docletToAdd target longname relationProperty];
         docletsWhichShouldBeIgnored :=
           docletsWhichShouldBeIgnored acc ++ [sibling1; sibling2] |}.
Proof.
  intros Hln Hrp Hsib H1 H2 Honly.
  rewrite (resolve_member_returns _ _ _ _ _ _ _ Hln Hrp), Hsib, Honly.
  assert (∀ d, field d "inheritdoc" ≠ VUndefined ∨ field d "overrides" ≠ VUndefined →
               negb (strict_eq (field d "inheritdoc") VUndefined
                     && strict_eq (field d "overrides") VUndefined) = true) as Hdef.
  { intros d [H|H]; apply negb_true_iff, andb_false_iff; [left|right];
      by destruct (field d _). }
  cbn [doAllParentsExplicitlyInherit forallb]. by rewrite !Hdef.
Qed.

(** [Dog] declares [speak] twice with [@inheritdoc]. *)
Lemma explicit_siblings_are_suppressed_witness :
  resolve_member kennel (createDocletMap kennel) dog (options_for augmentsNested)
    {| newDoclets := []; docletsWhichShouldBeIgnored := [] |} speak
  = Returns {| newDoclets := [dog_speak];
               docletsWhichShouldBeIgnored := [speak_override1; speak_override2] |}.
Proof.
  rewrite (explicit_siblings_are_suppressed kennel (createDocletMap kennel) dog
             (options_for augmentsNested)
             {| newDoclets := []; docletsWhichShouldBeIgnored := [] |} speak
             (VStr "Dog#speak") (VStr "inherited") speak_override1 speak_override2);
    [vm_compute; reflexivity
    | reflexivity | reflexivity | vm_compute; reflexivity
    | left; vm_compute; discriminate | left; vm_compute; discriminate
    | reflexivity].
Defined.

(** C10: for [implementsNested], when the parent of the candidate has neither
    the mixin nor the class descendant (the relation property is [null]) and
    two or more siblings exist that do not pass the all-explicit test, the
    doclet emitted is the first sibling with the key ['null'] set to [true];
    its [inherited] and [mixed] fields are those of the first sibling, and all
    the siblings are appended to [docletsWhichShouldBeIgnored]. *)
Theorem null_tag_on_forced_clone (docletCollection : DocletCollection)
    (docletMap : gmap string Doclet) (target : Doclet) (options : Options)
    (acc : MissingDocletsData) (docletToAdd parent : Doclet) (longname : value)
    (first second : Doclet) (others : list Doclet) :
  Options.relation options = implementsNested →
  getLongnameForNewDoclet docletToAdd target = Returns longname →
  docletMap_read docletMap (to_string (field docletToAdd "memberof")) = Some parent →
  ¬ has_descendant_of_kind docletMap parent target "mixin" →
  ¬ has_descendant_of_kind docletMap parent target "class" →
  siblings_of_same_member docletCollection target docletToAdd
    = first :: second :: others →
  doAllParentsExplicitlyInherit (first :: second :: others)
    && negb (truthy (Options.onlyImplicitlyInherited options)) = false →
  let emitted := <["null" := VBool true]> first in
  resolve_member docletCollection docletMap target options acc docletToAdd
  = Returns
      {| newDoclets := newDoclets acc ++ [emitted];
         docletsWhichShouldBeIgnored :=
           docletsWhichShouldBeIgnored acc ++ first :: second :: others |}
  ∧ emitted !! "null" = Some (VBool true)
  ∧ emitted !! "inherited" = first !! "inherited"
  ∧ emitted !! "mixed" = first !! "mixed".
Proof.
  intros Hrel Hln Hparent Hmixin Hclass Hsib Hexplicit emitted.
  assert (getRelationProperty docletMap target docletToAdd
            (Options.relation options) = Returns VNull) as Hrp.
  { rewrite Hrel, (getRelationProperty_implements _ _ _ _ Hparent).
    rewrite <- descendant_hit_spec in Hmixin, Hclass.
    by apply not_true_is_false in Hmixin as ->, Hclass as ->. }
  split; [|by subst emitted; rewrite lookup_insert_eq, !lookup_insert_ne].
  by rewrite (resolve_member_returns _ _ _ _ _ _ _ Hln Hrp), Hsib, Hexplicit.
Qed.

(** [Parrot] has two [talk] doclets, one of them not explicit. *)
Lemma null_tag_on_forced_clone_witness :
  let emitted := <["null" := VBool true]> talk_existing1 in
  resolve_member crowded_aviary (createDocletMap crowded_aviary) parrot
    (options_for implementsNested)
    {| newDoclets := []; docletsWhichShouldBeIgnored := [] |} talk
  = Returns
      {| newDoclets := [] ++ [emitted];
         docletsWhichShouldBeIgnored := [] ++ [talk_existing1; talk_existing2] |}
  ∧ emitted !! "null" = Some (VBool true)
  ∧ emitted !! "inherited" = talk_existing1 !! "inherited"
  ∧ emitted !! "mixed" = talk_existing1 !! "mixed".
Proof.
  apply (null_tag_on_forced_clone crowded_aviary (createDocletMap crowded_aviary)
           parrot (options_for implementsNested)
           {| newDoclets := []; docletsWhichShouldBeIgnored := [] |}
           talk speaker (VStr "Parrot#talk") talk_existing1 talk_existing2 []);
    [reflexivity | reflexivity | vm_compute; reflexivity
    | rewrite <- descendant_hit_spec; vm_compute; discriminate
    | rewrite <- descendant_hit_spec; vm_compute; discriminate
    | vm_compute; reflexivity | vm_compute; reflexivity].
Defined.

(** ** The doclet map *)

Lemma docletMap_add_keeps (docletMap : gmap string Doclet) (doclet : Doclet)
    (key : string) :
  is_Some (docletMap_read docletMap key) →
  is_Some (docletMap_read (docletMap_add docletMap doclet) key).
Proof.
  intros Hk. unfold docletMap_add.
  destruct (docletMap_read docletMap (to_string (field doclet "longname")));
    [done|].
  unfold docletMap_read in *.
  destruct (decide (to_string (field doclet "longname") = key)) as [->|Hne].
  - by rewrite lookup_insert_eq.
  - by rewrite lookup_insert_ne.
Qed.

Lemma docletMap_add_binds (docletMap : gmap string Doclet) (doclet : Doclet) :
  is_Some (docletMap_read (docletMap_add docletMap doclet)
             (to_string (field doclet "longname"))).
Proof.
  unfold docletMap_add.
  destruct (docletMap_read docletMap _) eqn:Hr; [by rewrite Hr|].
  unfold docletMap_read. by rewrite lookup_insert_eq.
Qed.

Lemma fold_docletMap_add_keeps (l : list Doclet) (docletMap : gmap string Doclet)
    (key : string) :
  is_Some (docletMap_read docletMap key) →
  is_Some (docletMap_read (fold_left docletMap_add l docletMap) key).
Proof.
  revert docletMap. induction l as [|d l IH]; intros m Hm; simpl; [done|].
  by apply IH, docletMap_add_keeps.
Qed.

Lemma createDocletMap_binds (doclets : DocletCollection) (doclet : Doclet) :
  doclet ∈ DocletCollection.getAll doclets →
  is_Some (docletMap_read (createDocletMap doclets)
             (to_string (field doclet "longname"))).
Proof.
  unfold createDocletMap.
  generalize (∅ : gmap string Doclet).
  induction (DocletCollection.getAll doclets) as [|d l IH]; intros m Hin; simpl.
  - by apply elem_of_nil in Hin.
  - apply elem_of_cons in Hin as [-> | Hin]; [|by apply IH].
    apply fold_docletMap_add_keeps, docletMap_add_binds.
Qed.

(** ** The whole call *)

(** C1 (amended): every doclet returned in [newDoclets] is the clone of a
    candidate or the forced clone of one of its existing siblings, tagged with
    the relation property computed for that candidate.  The resolver sets at
    most one of [inherited] and [mixed] to [true] on it: [inherited] under
    [augmentsNested], [mixed] under [mixesNested], and under
    [implementsNested] whichever the descendants give, or neither when the
    tag is [null].  The field it does not set keeps whatever the cloned doclet
    held. *)
Theorem relation_tag_on_new_doclets (docletCollection : DocletCollection)
    (target : Doclet) (options : Options) (result : MissingDocletsData)
    (emitted : Doclet) :
  getMissingDocletsData docletCollection target options = Returns result →
  emitted ∈ newDoclets result →
  ∃ docletsToAdd docletToAdd relationProperty base,
    getDocletsToAdd docletCollection target options = Returns docletsToAdd
    ∧ docletToAdd ∈ docletsToAdd
    ∧ getRelationProperty (createDocletMap docletCollection) target docletToAdd
        (Options.relation options) = Returns relationProperty
    ∧ (relationProperty = VStr "inherited" ∨ relationProperty = VStr "mixed"
       ∨ relationProperty = VNull)
    ∧ (Options.relation options = augmentsNested →
       relationProperty = VStr "inherited")
    ∧ (Options.relation options = mixesNested → relationProperty = VStr "mixed")
    ∧ (base = docletToAdd
       ∨ base ∈ siblings_of_same_member docletCollection target docletToAdd)
    ∧ emitted !! "inherited"
      = (if strict_eq relationProperty (VStr "inherited")
         then Some (VBool true) else base !! "inherited")
    ∧ emitted !! "mixed"
      = (if strict_eq relationProperty (VStr "mixed")
         then Some (VBool true) else base !! "mixed").
Proof.
  unfold getMissingDocletsData.
  destruct (getDocletsToAdd docletCollection target options) as [l|] eqn:Hl;
    [|done].
  cbn [mbind outcome_bind]. intros Hrun Hin. exists l.
  revert emitted Hin. pattern result.
  eapply for_of_invariant; [exact Hrun|intros e He; by apply elem_of_nil in He|].
  cbv beta.
  intros s0 c s1 Hc IH Hstep e He.
  apply resolve_member_effect in Hstep as (ln & rp & Hln & Hrp & Hnew).
  pose proof (getRelationProperty_range _ _ _ _ _ Hrp) as Hrange.
  assert (e ∈ newDoclets s0 ∨ ∃ base,
            (base = c ∨ base ∈ siblings_of_same_member docletCollection target c)
            ∧ e !! "inherited"
              = (if strict_eq rp (VStr "inherited") then Some (VBool true)
                 else base !! "inherited")
            ∧ e !! "mixed"
              = (if strict_eq rp (VStr "mixed") then Some (VBool true)
                 else base !! "mixed")) as [?|(base & Hbase & Hi & Hm)].
  { destruct Hnew as [Hnew | [Hnew | (first & Hfirst & Hnew)]];
      rewrite Hnew in He; [by left| |];
      (apply elem_of_app in He as [?|He]; [by left|]);
      apply list_elem_of_singleton in He as ->; right.
    - exists c. split; [by left|].
      split; by apply clonedDoclet_relation_field; [|auto].
    - exists first. split; [by right|].
      split; by apply correctDoclet_relation_field; [|auto]. }
  { by apply IH. }
  exists c, rp, base. repeat (split; [done|]).
  split; [|split; [|done]]; intros Hrel; rewrite Hrel in Hrp; by injection Hrp.
Qed.

(** The tag on [Dog#speak]. *)
Lemma relation_tag_on_new_doclets_witness :
  ∃ docletsToAdd docletToAdd relationProperty base,
    getDocletsToAdd zoo dog (options_for augmentsNested) = Returns docletsToAdd
    ∧ docletToAdd ∈ docletsToAdd
    ∧ getRelationProperty (createDocletMap zoo) dog docletToAdd
        (Options.relation (options_for augmentsNested)) = Returns relationProperty
    ∧ (relationProperty = VStr "inherited" ∨ relationProperty = VStr "mixed"
       ∨ relationProperty = VNull)
    ∧ (Options.relation (options_for augmentsNested) = augmentsNested →
       relationProperty = VStr "inherited")
    ∧ (Options.relation (options_for augmentsNested) = mixesNested →
       relationProperty = VStr "mixed")
    ∧ (base = docletToAdd ∨ base ∈ siblings_of_same_member zoo dog docletToAdd)
    ∧ dog_speak !! "inherited"
      = (if strict_eq relationProperty (VStr "inherited")
         then Some (VBool true) else base !! "inherited")
    ∧ dog_speak !! "mixed"
      = (if strict_eq relationProperty (VStr "mixed")
         then Some (VBool true) else base !! "mixed").
Proof.
  apply (relation_tag_on_new_doclets zoo dog (options_for augmentsNested)
           {| newDoclets := [dog_speak; dog_create];
              docletsWhichShouldBeIgnored := [] |} dog_speak);
    [vm_compute; reflexivity | left].
Defined.

(** Against C1 as stated: under [implementsNested] with no matching
    descendant the only new doclet has neither field, and a candidate that
    already carries [mixed] comes out of [augmentsNested] with both. *)
Lemma relation_tag_counterexample :
  (∃ emitted,
     getMissingDocletsData aviary parrot (options_for implementsNested)
     = Returns {| newDoclets := [emitted]; docletsWhichShouldBeIgnored := [] |}
     ∧ emitted !! "inherited" = None ∧ emitted !! "mixed" = None)
  ∧ (∃ emitted,
       getMissingDocletsData cattery kitten (options_for augmentsNested)
       = Returns {| newDoclets := [emitted]; docletsWhichShouldBeIgnored := [] |}
       ∧ emitted !! "inherited" = Some (VBool true)
       ∧ emitted !! "mixed" = Some (VBool true)).
Proof.
  split; [exists parrot_talk | exists kitten_purr];
    (split; [vm_compute; reflexivity|split; vm_compute; reflexivity]).
Qed.

(** C2 (amended): the call returns a result, and does not throw, whenever the
    relation field of the target is falsy or an array, the longname of every
    candidate is a string, and, for [implementsNested], the [memberof] of
    every candidate is the longname of some doclet of [getAll()].  Longnames
    need not be unique nor carry a separator, and for the other two relations
    the ancestors need not be in the store. *)
Theorem returns_without_raising (docletCollection : DocletCollection)
    (target : Doclet) (options : Options) (ancestors : list value) :
  ancestors_of target options = Returns ancestors →
  (∀ ancestor candidate,
     ancestor ∈ ancestors →
     candidate ∈ DocletCollection.get docletCollection (memberof_category ancestor) →
     shouldDocletBeAdded options candidate = true →
     (∃ s, field candidate "longname" = VStr s)
     ∧ (Options.relation options = implementsNested →
        ∃ parent,
          parent ∈ DocletCollection.getAll docletCollection
          ∧ to_string (field parent "longname")
            = to_string (field candidate "memberof"))) →
  ∃ result, getMissingDocletsData docletCollection target options = Returns result.
Proof.
  intros Ha Hgood. unfold getMissingDocletsData.
  assert (∃ l, getDocletsToAdd docletCollection target options = Returns l
               ∧ ∀ c, c ∈ l →
                   shouldDocletBeAdded options c = true
                   ∧ ∃ a, a ∈ ancestors
                       ∧ c ∈ DocletCollection.get docletCollection
                               (memberof_category a)) as (l & -> & Hl).
  { unfold getDocletsToAdd. rewrite Ha. eexists. split; [done|].
    intros c Hc.
    apply elem_of_fold_append in Hc as [Hc|(a & Hin & Hc)];
      [by apply elem_of_nil in Hc|].
    apply list_elem_of_In, filter_In in Hc as [Hc ?].
    split; [done|]. exists a. split; [done|]. by apply list_elem_of_In. }
  cbn [mbind outcome_bind]. apply for_of_total. intros s0 c Hc.
  destruct (Hl c Hc) as (Hok & a & Hin & Hmem).
  destruct (Hgood a c Hin Hmem Hok) as [[s Hs] Hparent].
  assert (∃ ln, getLongnameForNewDoclet c target = Returns ln) as [ln Hln].
  { unfold getLongnameForNewDoclet. rewrite Hs. by eexists. }
  assert (∃ rp, getRelationProperty (createDocletMap docletCollection) target c
                  (Options.relation options) = Returns rp) as [rp Hrp].
  { destruct (Options.relation options) eqn:Hrel; [by eexists..|].
    destruct Hparent as (p & Hp & Hkey); [done|].
    destruct (createDocletMap_binds _ _ Hp) as [parent Hread].
    rewrite Hkey in Hread.
    rewrite (getRelationProperty_implements _ _ _ _ Hread). by eexists. }
  rewrite (resolve_member_returns _ _ _ _ _ _ _ Hln Hrp).
  destruct (siblings_of_same_member _ _ _) as [|first [|second others]];
    [by eexists|destruct (_ && _); by eexists..].
Qed.

(** With the interface in the store, the call returns. *)
Lemma returns_without_raising_witness :
  ∃ result,
    getMissingDocletsData aviary parrot (options_for implementsNested)
    = Returns result.
Proof.
  apply (returns_without_raising aviary parrot (options_for implementsNested)
           [VStr "Speaker"]); [reflexivity|].
  intros ancestor candidate Ha Hc _.
  apply list_elem_of_singleton in Ha as ->.
  vm_compute in Hc. apply list_elem_of_singleton in Hc as ->.
  split; [by exists "Speaker#talk"|].
  intros _. exists speaker. split; [left|reflexivity].
Defined.

(** Against C2 as stated: the candidate [Speaker#talk] is filed under
    [Speaker], no doclet of [getAll()] has that longname, and the call
    throws. *)
Lemma missing_parent_raises :
  (∀ doclet, doclet ∈ DocletCollection.getAll aviary_without_speaker →
             field doclet "longname" ≠ field talk "memberof")
  ∧ getDocletsToAdd aviary_without_speaker parrot (options_for implementsNested)
    = Returns [talk]
  ∧ getMissingDocletsData aviary_without_speaker parrot
      (options_for implementsNested) = TypeError.
Proof.
  split; [|split; vm_compute; reflexivity].
  intros d Hd.
  apply elem_of_cons in Hd as [-> | Hd]; [by vm_compute|].
  apply list_elem_of_singleton in Hd as ->. by vm_compute.
Qed.

(** ** The longname of the new doclet *)

(** A doclet that a turn of the loop always appends is in the [newDoclets] of
    the whole call. *)
Lemma appended_doclet_is_returned (docletCollection : DocletCollection)
    (target : Doclet) (options : Options) (docletToAdd emitted : Doclet)
    (docletsToAdd : list Doclet) (result : MissingDocletsData) :
  (∀ acc, ∃ acc',
     resolve_member docletCollection (createDocletMap docletCollection) target
       options acc docletToAdd = Returns acc'
     ∧ emitted ∈ newDoclets acc') →
  getDocletsToAdd docletCollection target options = Returns docletsToAdd →
  docletToAdd ∈ docletsToAdd →
  getMissingDocletsData docletCollection target options = Returns result →
  emitted ∈ newDoclets result.
Proof.
  intros Hstep Hcands Hin Hrun.
  unfold getMissingDocletsData in Hrun. rewrite Hcands in Hrun.
  cbn [mbind outcome_bind] in Hrun.
  apply list_elem_of_split in Hin as (l1 & l2 & ->).
  rewrite for_of_app in Hrun.
  destruct (for_of _ l1 _) as [s1|]; [|done].
  cbn [mbind outcome_bind for_of] in Hrun.
  destruct (Hstep s1) as (s2 & Hs2 & He). rewrite Hs2 in Hrun.
  cbn [mbind outcome_bind] in Hrun.
  eapply (for_of_invariant _ (λ s, emitted ∈ newDoclets s)); [exact Hrun|done|].
  intros s0 x s3 _ Hs0 Hx. by eapply resolve_member_grows.
Qed.

(** C5 (amended): let the longname of the candidate be [pre ++ sep ++ name],
    with [sep] one of ['.'] and ['#'] and neither of them in [name] (so [sep]
    is the last separator of the longname), and let the relation property be
    computed.  When the target has no doclet of the name and kind of the
    candidate, or all of them are explicit and
    [options.onlyImplicitlyInherited] is falsy, the turn of the loop appends
    one doclet to [newDoclets], whose [longname] is the longname of the target
    followed by [sep ++ name] and whose [memberof] is the longname of the
    target.  When there are two or more such doclets and that test fails, the
    doclet appended is the forced clone of the first one, and its [longname]
    and [memberof] are those of that sibling.  In both cases the doclet is in
    the [newDoclets] of the whole call. *)
Theorem longname_of_new_doclet (docletCollection : DocletCollection)
    (target : Doclet) (options : Options) (docletToAdd : Doclet)
    (pre name t : string) (sep : ascii) (relationProperty : value) :
  let docletMap := createDocletMap docletCollection in
  let siblings := siblings_of_same_member docletCollection target docletToAdd in
  let explicit :=
    doAllParentsExplicitlyInherit siblings
    && negb (truthy (Options.onlyImplicitlyInherited options)) in
  field docletToAdd "longname" = VStr (pre +:+ String sep name) →
  field target "longname" = VStr t →
  sep = "."%char ∨ sep = "#"%char →
  "."%char ∉ list_ascii_of_string name →
  "#"%char ∉ list_ascii_of_string name →
  getRelationProperty docletMap target docletToAdd (Options.relation options)
    = Returns relationProperty →
  (siblings = [] ∨ explicit = true →
   ∃ emitted,
     emitted !! "longname" = Some (VStr (t +:+ String sep name))
     ∧ emitted !! "memberof" = Some (VStr t)
     ∧ (∀ acc,
          resolve_member docletCollection docletMap target options acc docletToAdd
          = Returns {| newDoclets := newDoclets acc ++ [emitted];
                       docletsWhichShouldBeIgnored :=
                         docletsWhichShouldBeIgnored acc ++ siblings |})
     ∧ ∀ docletsToAdd result,
         getDocletsToAdd docletCollection target options = Returns docletsToAdd →
         docletToAdd ∈ docletsToAdd →
         getMissingDocletsData docletCollection target options = Returns result →
         emitted ∈ newDoclets result)
  ∧ (∀ first second others,
       siblings = first :: second :: others → explicit = false →
       ∃ emitted,
         emitted !! "longname" = first !! "longname"
         ∧ emitted !! "memberof" = first !! "memberof"
         ∧ (∀ acc,
              resolve_member docletCollection docletMap target options acc
                docletToAdd
              = Returns {| newDoclets := newDoclets acc ++ [emitted];
                           docletsWhichShouldBeIgnored :=
                             docletsWhichShouldBeIgnored acc ++ siblings |})
         ∧ ∀ docletsToAdd result,
             getDocletsToAdd docletCollection target options
               = Returns docletsToAdd →
             docletToAdd ∈ docletsToAdd →
             getMissingDocletsData docletCollection target options
               = Returns result →
             emitted ∈ newDoclets result).
Proof.
  intros docletMap siblings explicit Hs Ht Hsep Hdot Hhash Hrp.
  pose proof (getLongnameForNewDoclet_last_separator _ _ _ _ _ _ Hs Ht Hsep
                Hdot Hhash) as Hln.
  pose proof (getRelationProperty_range _ _ _ _ _ Hrp) as Hrange.
  pose proof (resolve_member_returns docletCollection docletMap target options
                docletToAdd _ _ Hln Hrp) as Hturn.
  fold siblings in Hturn. split.
  - intros Hclone.
    exists (clonedDoclet docletToAdd target (VStr (t +:+ String sep name))
              relationProperty).
    assert (∀ acc,
      resolve_member docletCollection docletMap target options acc docletToAdd
      = Returns
          {| newDoclets :=
               newDoclets acc
               ++ [clonedDoclet docletToAdd target (VStr (t +:+ String sep name))
                     relationProperty];
             docletsWhichShouldBeIgnored :=
               docletsWhichShouldBeIgnored acc ++ siblings |}) as Hstep.
    { intros acc. rewrite Hturn. subst explicit.
      destruct siblings as [|first others]; [by rewrite app_nil_r|].
      destruct Hclone as [? | ->]; done. }
    split; [|split; [|split; [done|]]].
    + rewrite clonedDoclet_tag by done.
      by rewrite lookup_insert_ne, lookup_insert_eq.
    + rewrite clonedDoclet_tag by done. by rewrite lookup_insert_eq, Ht.
    + intros docletsToAdd result. apply appended_doclet_is_returned.
      intros acc. eexists. split; [apply Hstep|]. simpl.
      apply elem_of_app. right. left.
  - intros first second others Hsib Hexplicit.
    exists (correctDoclet first relationProperty).
    assert (∀ acc,
      resolve_member docletCollection docletMap target options acc docletToAdd
      = Returns
          {| newDoclets := newDoclets acc ++ [correctDoclet first relationProperty];
             docletsWhichShouldBeIgnored :=
               docletsWhichShouldBeIgnored acc ++ siblings |}) as Hstep.
    { intros acc. rewrite Hturn. subst explicit. rewrite Hsib in Hexplicit |- *.
      by rewrite Hexplicit. }
    assert (∀ k, k ≠ "inherited" → k ≠ "mixed" → k ≠ "null" →
                 correctDoclet first relationProperty !! k = first !! k) as Hkeep.
    { intros k ???. unfold correctDoclet, set, cloneDeep.
      apply lookup_insert_ne. by destruct Hrange as [-> | [-> | ->]]. }
    split; [by apply Hkeep|]. split; [by apply Hkeep|]. split; [done|].
    intros docletsToAdd result. apply appended_doclet_is_returned.
    intros acc. eexists. split; [apply Hstep|]. simpl.
    apply elem_of_app. right. left.
Qed.

(** [Animal#speak] propagated to a [Dog] without a [speak] of its own, and to
    a [Dog] with a static and an instance [speak]. *)
Lemma longname_of_new_doclet_witness :
  (∃ emitted,
     emitted !! "longname" = Some (VStr ("Dog" +:+ String "#" "speak"))
     ∧ emitted !! "memberof" = Some (VStr "Dog")
     ∧ (∀ acc,
          resolve_member zoo (createDocletMap zoo) dog
            (options_for augmentsNested) acc speak
          = Returns {| newDoclets := newDoclets acc ++ [emitted];
                       docletsWhichShouldBeIgnored :=
                         docletsWhichShouldBeIgnored acc
                         ++ siblings_of_same_member zoo dog speak |})
     ∧ ∀ docletsToAdd result,
         getDocletsToAdd zoo dog (options_for augmentsNested)
           = Returns docletsToAdd →
         speak ∈ docletsToAdd →
         getMissingDocletsData zoo dog (options_for augmentsNested)
           = Returns result →
         emitted ∈ newDoclets result)
  ∧ (∃ emitted,
       emitted !! "longname" = dog_static_speak !! "longname"
       ∧ emitted !! "memberof" = dog_static_speak !! "memberof"
       ∧ (∀ acc,
            resolve_member shelter (createDocletMap shelter) dog
              (options_for augmentsNested) acc speak
            = Returns {| newDoclets := newDoclets acc ++ [emitted];
                         docletsWhichShouldBeIgnored :=
                           docletsWhichShouldBeIgnored acc
                           ++ siblings_of_same_member shelter dog speak |})
       ∧ ∀ docletsToAdd result,
           getDocletsToAdd shelter dog (options_for augmentsNested)
             = Returns docletsToAdd →
           speak ∈ docletsToAdd →
           getMissingDocletsData shelter dog (options_for augmentsNested)
             = Returns result →
           emitted ∈ newDoclets result).
Proof.
  split.
  - apply (longname_of_new_doclet zoo dog (options_for augmentsNested) speak
             "Animal" "speak" "Dog" "#" (VStr "inherited"));
      [reflexivity | reflexivity | by right | compute_done | compute_done
      | reflexivity | left; vm_compute; reflexivity].
  - apply (longname_of_new_doclet shelter dog (options_for augmentsNested) speak
             "Animal" "speak" "Dog" "#" (VStr "inherited")) with dog_instance_speak [];
      [reflexivity | reflexivity | by right | compute_done | compute_done
      | reflexivity | vm_compute; reflexivity | vm_compute; reflexivity].
Defined.

(** Against C5 as stated: [Dog] has a static and an instance [speak]; for the
    candidate [Animal#speak] the call returns one new doclet whose longname is
    [Dog.speak], not the [Dog#speak] that the longname of the target and the
    suffix of the candidate give. *)
Lemma forced_clone_keeps_sibling_longname :
  getDocletsToAdd shelter dog (options_for augmentsNested) = Returns [speak]
  ∧ getLongnameForNewDoclet speak dog = Returns (VStr "Dog#speak")
  ∧ getMissingDocletsData shelter dog (options_for augmentsNested)
    = Returns {| newDoclets := [dog_static_speak_inherited];
                 docletsWhichShouldBeIgnored :=
                   [dog_static_speak; dog_instance_speak] |}
  ∧ dog_static_speak_inherited !! "longname" = Some (VStr "Dog.speak")
  ∧ dog_static_speak_inherited !! "longname" ≠ Some (VStr "Dog#speak").
Proof.
  split; [vm_compute; reflexivity|]. split; [reflexivity|].
  split; [vm_compute; reflexivity|]. split; [reflexivity|].
  vm_compute. discriminate.
Qed.

(** * Further properties of the resolver *)

(** ** No ancestors *)

Lemma for_of_throws {S A} (body : S → A → outcome S) (l : list A) (s : S) :
  for_of body l s = TypeError → ∃ x s0, x ∈ l ∧ body s0 x = TypeError.
Proof.
  revert s. induction l as [|x l IH]; intros s; simpl; [done|].
  destruct (body s x) as [s1|] eqn:Hx; simpl.
  - intros (y & s0 & Hy & Hthrow)%IH. exists y, s0. split; [by right|done].
  - intros _. exists x, s. split; [left|done].
Qed.

Lemma for_of_throwing_element {S A} (body : S → A → outcome S) (l : list A)
    (s : S) (x : A) :
  x ∈ l → (∀ s0, body s0 x = TypeError) → for_of body l s = TypeError.
Proof.
  intros Hx Hthrow. revert s. induction l as [|y l IH]; intros s; simpl.
  - by apply elem_of_nil in Hx.
  - apply elem_of_cons in Hx as [<- | Hx]; [by rewrite Hthrow|].
    destruct (body s y); simpl; [by apply IH|done].
Qed.

(** Whether a turn of the loop throws does not depend on the lists
    accumulated so far. *)
Lemma resolve_member_throws (docletCollection : DocletCollection)
    (docletMap : gmap string Doclet) (target : Doclet) (options : Options)
    (acc : MissingDocletsData) (docletToAdd : Doclet) :
  resolve_member docletCollection docletMap target options acc docletToAdd
  = TypeError
  ↔ getLongnameForNewDoclet docletToAdd target = TypeError
    ∨ getRelationProperty docletMap target docletToAdd (Options.relation options)
      = TypeError.
Proof.
  destruct (getLongnameForNewDoclet docletToAdd target) as [ln|] eqn:Hln;
    [|split; [by right + left|unfold resolve_member; by rewrite Hln]].
  destruct (getRelationProperty docletMap target docletToAdd
              (Options.relation options)) as [rp|] eqn:Hrp;
    [|split; [by right|unfold resolve_member; by rewrite Hln, Hrp]].
  rewrite (resolve_member_returns _ _ _ _ _ _ _ Hln Hrp).
  split; [|by intros [?|?]].
  destruct (siblings_of_same_member _ _ _) as [|first [|second others]];
    [done|destruct (_ && _); done..].
Qed.

(** X1: when the relation field of the target is falsy (absent, [null], empty
    string, ...) or the empty array, the call returns two empty lists, whatever
    the store holds. *)
Theorem no_ancestors_no_doclets (docletCollection : DocletCollection)
    (target : Doclet) (options : Options) :
  truthy (field target (relation_key (Options.relation options))) = false
  ∨ field target (relation_key (Options.relation options)) = VArr [] →
  getMissingDocletsData docletCollection target options
  = Returns {| newDoclets := []; docletsWhichShouldBeIgnored := [] |}.
Proof.
  intros H. unfold getMissingDocletsData, getDocletsToAdd.
  assert (ancestors_of target options = Returns []) as ->; [|done].
  unfold ancestors_of. destruct H as [-> | ->]; done.
Qed.

Lemma no_ancestors_no_doclets_witness :
  getMissingDocletsData zoo animal (options_for augmentsNested)
  = Returns {| newDoclets := []; docletsWhichShouldBeIgnored := [] |}.
Proof.
  apply (no_ancestors_no_doclets zoo animal (options_for augmentsNested)).
  left. reflexivity.
Defined.

(** X2: the call throws exactly when the relation field of the target is truthy
    and not an array, or some candidate has a longname that is neither a
    string nor an array, or, for [implementsNested], has a [memberof] that the
    doclet map does not resolve.  No other path of the function throws. *)
Theorem throws_exactly_when (docletCollection : DocletCollection)
    (target : Doclet) (options : Options) :
  getMissingDocletsData docletCollection target options = TypeError
  ↔ (truthy (field target (relation_key (Options.relation options))) = true
     ∧ ∀ longnames,
         field target (relation_key (Options.relation options)) ≠ VArr longnames)
    ∨ ∃ docletsToAdd docletToAdd,
        getDocletsToAdd docletCollection target options = Returns docletsToAdd
        ∧ docletToAdd ∈ docletsToAdd
        ∧ (((∀ s, field docletToAdd "longname" ≠ VStr s)
            ∧ ∀ elems, field docletToAdd "longname" ≠ VArr elems)
           ∨ (Options.relation options = implementsNested
              ∧ docletMap_read (createDocletMap docletCollection)
                  (to_string (field docletToAdd "memberof")) = None)).
Proof.
  assert (∀ c, getLongnameForNewDoclet c target = TypeError
               ↔ (∀ s, field c "longname" ≠ VStr s)
                 ∧ ∀ elems, field c "longname" ≠ VArr elems) as Hlongname.
  { intros c. unfold getLongnameForNewDoclet.
    destruct (field c "longname") as [| | | |s|elems|];
      try (split; [by intros _; split; intros|done]).
    - split; [done|]. intros [H _]. by destruct (H s).
    - split; [done|]. intros [_ H]. by destruct (H elems). }
  assert (∀ c, getRelationProperty (createDocletMap docletCollection) target c
                 (Options.relation options) = TypeError
               ↔ Options.relation options = implementsNested
                 ∧ docletMap_read (createDocletMap docletCollection)
                     (to_string (field c "memberof")) = None) as Hrelation.
  { intros c. unfold getRelationProperty.
    destruct (Options.relation options); [by split; [|intros []]..|].
    destruct (docletMap_read _ _); [|done].
    split; [|by intros []].
    by destruct (if isNonEmptyArray _ then _ else _) as [[] []]. }
  unfold getMissingDocletsData, getDocletsToAdd.
  destruct (ancestors_of target options) as [ancestors|] eqn:Ha.
  - cbn [mbind outcome_bind]. split.
    + intros (c & s0 & Hc & Hthrow)%for_of_throws. right.
      eexists _, c. split; [done|]. split; [done|].
      apply resolve_member_throws in Hthrow as [?%Hlongname | ?%Hrelation]; auto.
    + intros [[Ht Hna] | (l & c & [= <-] & Hc & Hbad)].
      * unfold ancestors_of in Ha. rewrite Ht in Ha.
        destruct (field target _); try done. by destruct (Hna elems).
      * apply (for_of_throwing_element _ _ _ c Hc). intros s0.
        apply resolve_member_throws.
        destruct Hbad as [?%Hlongname | ?%Hrelation]; auto.
  - split; [intros _; left|done].
    unfold ancestors_of in Ha.
    destruct (truthy _) eqn:Ht; [|done]. split; [done|].
    intros l Hl. by rewrite Hl in Ha.
Qed.

(** ** The doclet map: first longname wins *)

(** What the map holds for a key, in terms of the scanned list. *)
Lemma fold_docletMap_add_lookup (l : list Doclet) (docletMap : gmap string Doclet)
    (key : string) :
  fold_left docletMap_add l docletMap !! key
  = match docletMap !! key with
    | Some doclet => Some doclet
    | None =>
        if is_prototype_key key then None
        else List.find (λ d, String.eqb (docletMap_key d) key) l
    end.
Proof.
  revert docletMap. induction l as [|d l IH]; intros m; simpl.
  - destruct (m !! key); [done|]. by destruct (is_prototype_key key).
  - rewrite IH. fold (docletMap_key d). unfold docletMap_add, docletMap_read.
    fold (docletMap_key d).
    destruct (String.eqb_spec (docletMap_key d) key) as [Heq | Hne].
    + rewrite Heq. destruct (m !! key) as [d'|] eqn:Hm; [by rewrite Hm|].
      destruct (is_prototype_key key); [by rewrite Hm|].
      by rewrite lookup_insert_eq.
    + destruct (m !! docletMap_key d); [done|].
      destruct (is_prototype_key (docletMap_key d)); [done|].
      by rewrite lookup_insert_ne.
Qed.

Lemma find_first {A} (p : A → bool) (l : list A) (x : A) :
  List.find p l = Some x
  ↔ ∃ before after,
      l = before ++ x :: after ∧ p x = true ∧ ∀ y, y ∈ before → p y = false.
Proof.
  induction l as [|y l IH]; simpl.
  - split; [done|]. intros (before & after & Hl & _). by destruct before.
  - destruct (p y) eqn:Hy.
    + split.
      * intros [= <-]. exists [], l. split; [done|]. split; [done|].
        intros z Hz. by apply elem_of_nil in Hz.
      * intros ([|z before] & after & Hl & Hx & Hbefore); simplify_eq/=; [done|].
        rewrite Hbefore in Hy; [done|left].
    + rewrite IH. split.
      * intros (before & after & -> & Hx & Hbefore).
        exists (y :: before), after. split; [done|]. split; [done|].
        intros z [-> |Hz]%elem_of_cons; [done|by apply Hbefore].
      * intros ([|z before] & after & Hl & Hx & Hbefore); simplify_eq/=;
          [congruence|].
        exists before, after. split; [done|]. split; [done|].
        intros z' Hz'. apply Hbefore. by right.
Qed.

(** X3: [createDocletMap] holds [doclet] under [key] exactly when [doclet] is the
    first doclet of [getAll()] whose longname converts to [key], and [key] is
    not a name inherited from [Object.prototype] (such a key is never
    stored). *)
Theorem docletMap_lookup_first (doclets : DocletCollection) (key : string)
    (doclet : Doclet) :
  createDocletMap doclets !! key = Some doclet
  ↔ is_prototype_key key = false
    ∧ ∃ before after,
        DocletCollection.getAll doclets = before ++ doclet :: after
        ∧ docletMap_key doclet = key
        ∧ ∀ d, d ∈ before → docletMap_key d ≠ key.
Proof.
  unfold createDocletMap. rewrite fold_docletMap_add_lookup, lookup_empty.
  destruct (is_prototype_key key); [by split; [|intros []]|].
  rewrite find_first. split.
  - intros (before & after & Hall & Hkey%String.eqb_eq & Hbefore).
    split; [done|]. exists before, after. split; [done|]. split; [done|].
    intros d Hd. apply String.eqb_neq. by apply Hbefore.
  - intros (_ & before & after & Hall & Hkey & Hbefore).
    exists before, after. split; [done|]. split; [by apply String.eqb_eq|].
    intros d Hd. apply String.eqb_neq. by apply Hbefore.
Qed.

(** ** Candidates are resolved independently *)

Lemma resolve_member_alone (docletCollection : DocletCollection)
    (docletMap : gmap string Doclet) (target : Doclet) (options : Options)
    (acc acc' : MissingDocletsData) (docletToAdd : Doclet) :
  resolve_member docletCollection docletMap target options acc docletToAdd
  = Returns acc' →
  let alone :=
    resolved_alone docletCollection docletMap target options docletToAdd in
  newDoclets acc' = newDoclets acc ++ newDoclets alone
  ∧ docletsWhichShouldBeIgnored acc'
    = docletsWhichShouldBeIgnored acc ++ docletsWhichShouldBeIgnored alone.
Proof.
  intros Hrun alone. subst alone. unfold resolved_alone.
  destruct (resolve_member_effect _ _ _ _ _ _ _ Hrun) as (ln & rp & Hln & Hrp & _).
  rewrite (resolve_member_returns _ _ _ _ _ _ _ Hln Hrp) in Hrun |- *.
  destruct (siblings_of_same_member _ _ _) as [|first [|second others]].
  - injection Hrun as <-. simpl. by rewrite app_nil_r.
  - destruct (_ && _); injection Hrun as <-; simpl; by rewrite ?app_nil_r.
  - destruct (_ && _); injection Hrun as <-; simpl; by rewrite ?app_nil_r.
Qed.

(** One candidate alone adds nothing, or one new doclet together with some of
    the siblings of that candidate. *)
Lemma resolved_alone_shape (docletCollection : DocletCollection)
    (docletMap : gmap string Doclet) (target : Doclet) (options : Options)
    (docletToAdd : Doclet) :
  let alone :=
    resolved_alone docletCollection docletMap target options docletToAdd in
  (newDoclets alone = [] ∧ docletsWhichShouldBeIgnored alone = [])
  ∨ ((∃ e, newDoclets alone = [e])
     ∧ ∀ d, d ∈ docletsWhichShouldBeIgnored alone →
            d ∈ siblings_of_same_member docletCollection target docletToAdd).
Proof.
  intros alone. subst alone. unfold resolved_alone.
  destruct (resolve_member _ _ _ _ _ _) as [r|] eqn:Hrun; [|by left].
  destruct (resolve_member_effect _ _ _ _ _ _ _ Hrun) as (ln & rp & Hln & Hrp & _).
  rewrite (resolve_member_returns _ _ _ _ _ _ _ Hln Hrp) in Hrun.
  destruct (siblings_of_same_member _ _ _) as [|first [|second others]].
  - injection Hrun as <-. right. split; [by eexists|]. by intros d Hd.
  - destruct (_ && _); injection Hrun as <-; [right|by left].
    split; [by eexists|]. by intros d Hd.
  - destruct (_ && _); injection Hrun as <-; right;
      (split; [by eexists|]); by intros d Hd.
Qed.

Lemma for_of_resolve_member (docletCollection : DocletCollection)
    (docletMap : gmap string Doclet) (target : Doclet) (options : Options)
    (l : list Doclet) (acc r : MissingDocletsData) :
  for_of (resolve_member docletCollection docletMap target options) l acc
  = Returns r →
  newDoclets r
  = newDoclets acc
    ++ concat (map (λ c, newDoclets
                           (resolved_alone docletCollection docletMap target
                              options c)) l)
  ∧ docletsWhichShouldBeIgnored r
    = docletsWhichShouldBeIgnored acc
      ++ concat (map (λ c, docletsWhichShouldBeIgnored
                             (resolved_alone docletCollection docletMap target
                                options c)) l).
Proof.
  revert acc. induction l as [|c l IH]; intros acc; simpl.
  - intros [= <-]. by rewrite !app_nil_r.
  - destruct (resolve_member _ _ _ _ acc c) as [acc1|] eqn:Hc; [|done]. simpl.
    intros [-> ->]%IH.
    apply resolve_member_alone in Hc as [-> ->]. by rewrite <- !app_assoc.
Qed.

Lemma getMissingDocletsData_by_candidate (docletCollection : DocletCollection)
    (target : Doclet) (options : Options) (docletsToAdd : list Doclet)
    (result : MissingDocletsData) :
  getDocletsToAdd docletCollection target options = Returns docletsToAdd →
  getMissingDocletsData docletCollection target options = Returns result →
  newDoclets result
  = concat (map (λ c, newDoclets
                        (resolved_alone docletCollection
                           (createDocletMap docletCollection) target
                           options c)) docletsToAdd)
  ∧ docletsWhichShouldBeIgnored result
    = concat (map (λ c, docletsWhichShouldBeIgnored
                          (resolved_alone docletCollection
                             (createDocletMap docletCollection) target
                             options c)) docletsToAdd).
Proof.
  unfold getMissingDocletsData. intros ->. cbn [mbind outcome_bind].
  intros Hrun. by apply for_of_resolve_member in Hrun.
Qed.

(** X4: the call does not join candidates: the two lists it returns are the
    concatenation, in the order of the candidates, of what the loop adds for
    each candidate taken alone. *)
Theorem candidates_resolve_independently (docletCollection : DocletCollection)
    (target : Doclet) (options : Options) (result : MissingDocletsData) :
  getMissingDocletsData docletCollection target options = Returns result →
  ∃ docletsToAdd,
    getDocletsToAdd docletCollection target options = Returns docletsToAdd
    ∧ newDoclets result
      = concat (map (λ c, newDoclets
                            (resolved_alone docletCollection
                               (createDocletMap docletCollection) target
                               options c)) docletsToAdd)
    ∧ docletsWhichShouldBeIgnored result
      = concat (map (λ c, docletsWhichShouldBeIgnored
                            (resolved_alone docletCollection
                               (createDocletMap docletCollection) target
                               options c)) docletsToAdd).
Proof.
  intros Hrun.
  destruct (getDocletsToAdd docletCollection target options) as [l|] eqn:Hl;
    [|by unfold getMissingDocletsData in Hrun; rewrite Hl in Hrun].
  exists l. split; [done|]. by apply getMissingDocletsData_by_candidate.
Qed.

Lemma candidates_resolve_independently_witness :
  ∃ docletsToAdd,
    getDocletsToAdd kennel dog (options_for augmentsNested) = Returns docletsToAdd
    ∧ [dog_speak]
      = concat (map (λ c, newDoclets
                            (resolved_alone kennel (createDocletMap kennel) dog
                               (options_for augmentsNested) c)) docletsToAdd)
    ∧ [speak_override1; speak_override2]
      = concat (map (λ c, docletsWhichShouldBeIgnored
                            (resolved_alone kennel (createDocletMap kennel) dog
                               (options_for augmentsNested) c)) docletsToAdd).
Proof.
  apply (candidates_resolve_independently kennel dog (options_for augmentsNested)
           {| newDoclets := [dog_speak];
              docletsWhichShouldBeIgnored := [speak_override1; speak_override2] |}).
  vm_compute. reflexivity.
Defined.

(** X5: the call returns at most as many new doclets as there are candidates, and
    it marks nothing as ignored unless it returns at least one new doclet. *)
Theorem at_most_one_new_doclet_per_candidate
    (docletCollection : DocletCollection) (target : Doclet) (options : Options)
    (docletsToAdd : list Doclet) (result : MissingDocletsData) :
  getDocletsToAdd docletCollection target options = Returns docletsToAdd →
  getMissingDocletsData docletCollection target options = Returns result →
  (length (newDoclets result) ≤ length docletsToAdd)%nat
  ∧ (newDoclets result = [] → docletsWhichShouldBeIgnored result = []).
Proof.
  intros Hl Hrun.
  destruct (getMissingDocletsData_by_candidate _ _ _ _ _ Hl Hrun) as [-> ->].
  clear Hl Hrun. induction docletsToAdd as [|c l [IHlen IHnil]]; [done|].
  cbn [map concat length]. rewrite length_app.
  destruct (resolved_alone_shape docletCollection
              (createDocletMap docletCollection) target options c)
    as [[-> ->] | [[e ->] _]]; simpl.
  - split; [lia|done].
  - split; [lia|done].
Qed.

Lemma at_most_one_new_doclet_per_candidate_witness :
  (length [dog_speak] ≤ length [speak])%nat
  ∧ ([dog_speak] = [] → [speak_override1; speak_override2] = []).
Proof.
  apply (at_most_one_new_doclet_per_candidate kennel dog
           (options_for augmentsNested) [speak]
           {| newDoclets := [dog_speak];
              docletsWhichShouldBeIgnored := [speak_override1; speak_override2] |});
    vm_compute; reflexivity.
Defined.

(** X6: every doclet the call asks to ignore is stored under the target and has
    the name and the kind of one of the candidates. *)
Theorem ignored_doclets_are_siblings (docletCollection : DocletCollection)
    (target : Doclet) (options : Options) (docletsToAdd : list Doclet)
    (result : MissingDocletsData) (ignored : Doclet) :
  getDocletsToAdd docletCollection target options = Returns docletsToAdd →
  getMissingDocletsData docletCollection target options = Returns result →
  ignored ∈ docletsWhichShouldBeIgnored result →
  ignored ∈ DocletCollection.get docletCollection
              (memberof_category (field target "longname"))
  ∧ ∃ docletToAdd,
      docletToAdd ∈ docletsToAdd ∧ same_member docletToAdd ignored = true.
Proof.
  intros Hl Hrun.
  destruct (getMissingDocletsData_by_candidate _ _ _ _ _ Hl Hrun) as [_ ->].
  intros Hin. apply list_elem_of_In, in_concat in Hin as (part & Hpart & Hin).
  apply in_map_iff in Hpart as (c & <- & Hc).
  apply list_elem_of_In in Hin, Hc.
  destruct (resolved_alone_shape docletCollection
              (createDocletMap docletCollection) target options c)
    as [[_ Hnil] | [_ Hsib]]; [rewrite Hnil in Hin; by apply elem_of_nil in Hin|].
  apply Hsib, list_elem_of_In, filter_In in Hin as [Hin Hsame].
  split; [by apply list_elem_of_In|]. by exists c.
Qed.

Lemma ignored_doclets_are_siblings_witness :
  speak_override2 ∈ DocletCollection.get kennel
                      (memberof_category (field dog "longname"))
  ∧ ∃ docletToAdd,
      docletToAdd ∈ [speak] ∧ same_member docletToAdd speak_override2 = true.
Proof.
  apply (ignored_doclets_are_siblings kennel dog (options_for augmentsNested)
           [speak]
           {| newDoclets := [dog_speak];
              docletsWhichShouldBeIgnored := [speak_override1; speak_override2] |});
    [vm_compute; reflexivity | vm_compute; reflexivity | by right; left].
Defined.

(** ** The remaining branches of the loop *)

(** X7: when the target has exactly one doclet of the name and kind of the
    candidate, and that doclet has neither [inheritdoc] nor [overrides], or
    [options.onlyImplicitlyInherited] is truthy, the turn of the loop changes
    nothing: no new doclet, nothing ignored. *)
Theorem single_sibling_is_left_alone (docletCollection : DocletCollection)
    (docletMap : gmap string Doclet) (target : Doclet) (options : Options)
    (acc : MissingDocletsData) (docletToAdd : Doclet)
    (longname relationProperty : value) (sibling : Doclet) :
  getLongnameForNewDoclet docletToAdd target = Returns longname →
  getRelationProperty docletMap target docletToAdd (Options.relation options)
    = Returns relationProperty →
  siblings_of_same_member docletCollection target docletToAdd = [sibling] →
  (field sibling "inheritdoc" = VUndefined ∧ field sibling "overrides" = VUndefined)
  ∨ truthy (Options.onlyImplicitlyInherited options) = true →
  resolve_member docletCollection docletMap target options acc docletToAdd
  = Returns acc.
Proof.
  intros Hln Hrp Hsib Hwhy.
  rewrite (resolve_member_returns _ _ _ _ _ _ _ Hln Hrp), Hsib.
  cbn [doAllParentsExplicitlyInherit forallb].
  destruct Hwhy as [[-> ->] | ->]; [done|].
  by rewrite andb_false_r.
Qed.

Lemma single_sibling_is_left_alone_witness :
  resolve_member farm (createDocletMap farm) dog (options_for augmentsNested)
    {| newDoclets := []; docletsWhichShouldBeIgnored := [] |} speak
  = Returns {| newDoclets := []; docletsWhichShouldBeIgnored := [] |}.
Proof.
  apply (single_sibling_is_left_alone farm (createDocletMap farm) dog
           (options_for augmentsNested)
           {| newDoclets := []; docletsWhichShouldBeIgnored := [] |} speak
           (VStr "Dog#speak") (VStr "inherited") dog_own_speak);
    [reflexivity | reflexivity | vm_compute; reflexivity
    | left; split; reflexivity].
Defined.

(** X8: with [options.onlyImplicitlyInherited] truthy and two or more siblings,
    explicit or not, the clone of the candidate is not emitted: the new doclet
    is the first sibling with the relation property set to [true] and every
    other field as the sibling has it, and all the siblings are ignored. *)
Theorem only_implicit_forces_first_sibling (docletCollection : DocletCollection)
    (docletMap : gmap string Doclet) (target : Doclet) (options : Options)
    (acc : MissingDocletsData) (docletToAdd : Doclet)
    (longname relationProperty : value)
    (first second : Doclet) (others : list Doclet) :
  getLongnameForNewDoclet docletToAdd target = Returns longname →
  getRelationProperty docletMap target docletToAdd (Options.relation options)
    = Returns relationProperty →
  siblings_of_same_member docletCollection target docletToAdd
    = first :: second :: others →
  truthy (Options.onlyImplicitlyInherited options) = true →
  ∃ emitted,
    resolve_member docletCollection docletMap target options acc docletToAdd
    = Returns
        {| newDoclets := newDoclets acc ++ [emitted];
           docletsWhichShouldBeIgnored :=
             docletsWhichShouldBeIgnored acc ++ first :: second :: others |}
    ∧ emitted !! to_string relationProperty = Some (VBool true)
    ∧ ∀ k, k ≠ to_string relationProperty → emitted !! k = first !! k.
Proof.
  intros Hln Hrp Hsib Honly. exists (correctDoclet first relationProperty).
  rewrite (resolve_member_returns _ _ _ _ _ _ _ Hln Hrp), Hsib, Honly.
  rewrite andb_false_r. split; [done|].
  unfold correctDoclet, set, cloneDeep.
  split; [by rewrite lookup_insert_eq|]. intros k Hk. by rewrite lookup_insert_ne.
Qed.

Lemma only_implicit_forces_first_sibling_witness :
  ∃ emitted,
    resolve_member kennel (createDocletMap kennel) dog only_implicit
      {| newDoclets := []; docletsWhichShouldBeIgnored := [] |} speak
    = Returns
        {| newDoclets := [] ++ [emitted];
           docletsWhichShouldBeIgnored :=
             [] ++ [speak_override1; speak_override2] |}
    ∧ emitted !! to_string (VStr "inherited") = Some (VBool true)
    ∧ ∀ k, k ≠ to_string (VStr "inherited") → emitted !! k = speak_override1 !! k.
Proof.
  apply (only_implicit_forces_first_sibling kennel (createDocletMap kennel) dog
           only_implicit
           {| newDoclets := []; docletsWhichShouldBeIgnored := [] |} speak
           (VStr "Dog#speak") (VStr "inherited") speak_override1 speak_override2 []);
    [reflexivity | reflexivity | vm_compute; reflexivity | reflexivity].
Defined.

(** ** The relation property for [implementsNested] *)

(** X9: for [implementsNested], with the parent of the member in the doclet map:
    one mixin descendant that reaches the target is enough for ['mixed'],
    whether or not a class reaches it too; a class descendant that reaches the
    target gives ['inherited'] when no mixin does. *)
Theorem tag_by_descendant_kind (docletMap : gmap string Doclet)
    (childDoclet memberDoclet parent : Doclet) :
  docletMap_read docletMap (to_string (field memberDoclet "memberof")) = Some parent →
  (has_descendant_of_kind docletMap parent childDoclet "mixin" →
   getRelationProperty docletMap childDoclet memberDoclet implementsNested
   = Returns (VStr "mixed"))
  ∧ (¬ has_descendant_of_kind docletMap parent childDoclet "mixin" →
     has_descendant_of_kind docletMap parent childDoclet "class" →
     getRelationProperty docletMap childDoclet memberDoclet implementsNested
     = Returns (VStr "inherited")).
Proof.
  intros Hp. rewrite (getRelationProperty_implements _ _ _ _ Hp).
  rewrite <- !descendant_hit_spec. split.
  - by intros ->.
  - by intros ->%not_true_is_false ->.
Qed.

Lemma tag_by_descendant_kind_witness :
  getRelationProperty (createDocletMap aviary_with_descendants) parrot talk
    implementsNested = Returns (VStr "mixed")
  ∧ getRelationProperty (createDocletMap aviary_via_class) parrot talk
      implementsNested = Returns (VStr "inherited").
Proof.
  split.
  - apply (tag_by_descendant_kind (createDocletMap aviary_with_descendants)
             parrot talk speaker_with_descendants);
      [vm_compute; reflexivity
      | apply descendant_hit_spec; vm_compute; reflexivity].
  - apply (tag_by_descendant_kind (createDocletMap aviary_via_class) parrot talk
             speaker_via_class);
      [vm_compute; reflexivity
      | rewrite <- descendant_hit_spec; vm_compute; discriminate
      | apply descendant_hit_spec; vm_compute; reflexivity].
Defined.

(** ** Tags and fields of the new doclets *)

(** X10: under [augmentsNested] every new doclet the call returns has
    [inherited: true], and under [mixesNested] every one has [mixed: true]. *)
Theorem new_doclets_carry_the_relation_tag (docletCollection : DocletCollection)
    (target : Doclet) (options : Options) (result : MissingDocletsData)
    (emitted : Doclet) :
  getMissingDocletsData docletCollection target options = Returns result →
  emitted ∈ newDoclets result →
  (Options.relation options = augmentsNested →
   emitted !! "inherited" = Some (VBool true))
  ∧ (Options.relation options = mixesNested →
     emitted !! "mixed" = Some (VBool true)).
Proof.
  unfold getMissingDocletsData.
  destruct (getDocletsToAdd docletCollection target options) as [l|]; [|done].
  cbn [mbind outcome_bind]. intros Hrun. revert emitted. pattern result.
  eapply for_of_invariant; [exact Hrun|intros e He; by apply elem_of_nil in He|].
  cbv beta. intros s0 c s1 _ IH Hstep e He.
  apply resolve_member_effect in Hstep as (ln & rp & _ & Hrp & Hnew).
  pose proof (getRelationProperty_range _ _ _ _ _ Hrp) as Hrange.
  destruct Hnew as [Hnew | [Hnew | (first & _ & Hnew)]];
    rewrite Hnew in He; [by apply IH| |];
    (apply elem_of_app in He as [?|He]; [by apply IH|]);
    apply list_elem_of_singleton in He as ->;
    rewrite ?clonedDoclet_relation_field, ?correctDoclet_relation_field by auto;
    (split; intros Hrel; rewrite Hrel in Hrp; by injection Hrp as <-).
Qed.

Lemma new_doclets_carry_the_relation_tag_witness :
  (Options.relation (options_for augmentsNested) = augmentsNested →
   dog_create !! "inherited" = Some (VBool true))
  ∧ (Options.relation (options_for augmentsNested) = mixesNested →
     dog_create !! "mixed" = Some (VBool true)).
Proof.
  apply (new_doclets_carry_the_relation_tag zoo dog (options_for augmentsNested)
           {| newDoclets := [dog_speak; dog_create];
              docletsWhichShouldBeIgnored := [] |} dog_create);
    [vm_compute; reflexivity | by right; left].
Defined.

(** X11: every new doclet is a copy of a doclet of the store: of a candidate, up
    to [longname], [memberof], [inherited] and [mixed]; or of a doclet stored
    under the target with the name and kind of a candidate, up to [inherited],
    [mixed] and [null]. *)
Theorem new_doclets_copy_store_doclets (docletCollection : DocletCollection)
    (target : Doclet) (options : Options) (docletsToAdd : list Doclet)
    (result : MissingDocletsData) (emitted : Doclet) :
  getDocletsToAdd docletCollection target options = Returns docletsToAdd →
  getMissingDocletsData docletCollection target options = Returns result →
  emitted ∈ newDoclets result →
  ∃ docletToAdd,
    docletToAdd ∈ docletsToAdd
    ∧ ((∀ k, k ≠ "longname" → k ≠ "memberof" → k ≠ "inherited" → k ≠ "mixed" →
             emitted !! k = docletToAdd !! k)
       ∨ ∃ sibling,
           sibling ∈ DocletCollection.get docletCollection
                       (memberof_category (field target "longname"))
           ∧ same_member docletToAdd sibling = true
           ∧ ∀ k, k ≠ "inherited" → k ≠ "mixed" → k ≠ "null" →
                  emitted !! k = sibling !! k).
Proof.
  unfold getMissingDocletsData. intros ->. cbn [mbind outcome_bind].
  intros Hrun. revert emitted. pattern result.
  eapply for_of_invariant; [exact Hrun|intros e He; by apply elem_of_nil in He|].
  cbv beta. intros s0 c s1 Hc IH Hstep e He.
  apply resolve_member_effect in Hstep as (ln & rp & Hln & Hrp & Hnew).
  pose proof (getRelationProperty_range _ _ _ _ _ Hrp) as Hrange.
  destruct Hnew as [Hnew | [Hnew | (first & Hfirst & Hnew)]];
    rewrite Hnew in He; [by apply IH| |];
    (apply elem_of_app in He as [?|He]; [by apply IH|]);
    apply list_elem_of_singleton in He as ->; exists c; (split; [done|]).
  - left. intros k ????. by eapply clonedDoclet_field.
  - right. exists first.
    apply list_elem_of_In, filter_In in Hfirst as [Hin Hsame].
    split; [by apply list_elem_of_In|]. split; [done|].
    intros k Hi Hm Hn. unfold correctDoclet, set, cloneDeep.
    apply lookup_insert_ne. by destruct Hrange as [-> | [-> | ->]].
Qed.

Lemma new_doclets_copy_store_doclets_witness :
  ∃ docletToAdd,
    docletToAdd ∈ [speak; create]
    ∧ ((∀ k, k ≠ "longname" → k ≠ "memberof" → k ≠ "inherited" → k ≠ "mixed" →
             dog_create !! k = docletToAdd !! k)
       ∨ ∃ sibling,
           sibling ∈ DocletCollection.get zoo
                       (memberof_category (field dog "longname"))
           ∧ same_member docletToAdd sibling = true
           ∧ ∀ k, k ≠ "inherited" → k ≠ "mixed" → k ≠ "null" →
                  dog_create !! k = sibling !! k).
Proof.
  apply (new_doclets_copy_store_doclets zoo dog (options_for augmentsNested)
           [speak; create]
           {| newDoclets := [dog_speak; dog_create];
              docletsWhichShouldBeIgnored := [] |} dog_create);
    [vm_compute; reflexivity | vm_compute; reflexivity | by right; left].
Defined.

(** ** The filter *)

Lemma getDocletsToAdd_concat (docletCollection : DocletCollection)
    (childDoclet : Doclet) (options : Options) (ancestors : list value) :
  ancestors_of childDoclet options = Returns ancestors →
  getDocletsToAdd docletCollection childDoclet options
  = Returns
      (concat
         (map (λ longname,
                 List.filter (shouldDocletBeAdded options)
                   (DocletCollection.get docletCollection
                      (memberof_category longname)))
              ancestors)).
Proof.
  intros Ha. unfold getDocletsToAdd. rewrite Ha. cbn [mbind outcome_bind].
  f_equal. rewrite <- (app_nil_l (concat _)). generalize (@nil Doclet).
  clear Ha. induction ancestors as [|a l IH]; intros acc; simpl; [by rewrite app_nil_r|].
  by rewrite IH, app_assoc.
Qed.

Lemma filter_sublist {A} (p q : A → bool) (l : list A) :
  (∀ x, p x = true → q x = true) →
  List.filter p l `sublist_of` List.filter q l.
Proof.
  intros Hpq. induction l as [|x l IH]; simpl; [done|].
  destruct (p x) eqn:Hp.
  - rewrite (Hpq x Hp). by apply sublist_skip.
  - destruct (q x); [by apply sublist_cons|done].
Qed.

(** X12: [options.filter] only removes candidates: the candidates found with a
    filter are, in the same order, among those found without it. *)
Theorem filter_only_removes_candidates (docletCollection : DocletCollection)
    (childDoclet : Doclet) (options : Options) (docletsToAdd : list Doclet) :
  getDocletsToAdd docletCollection childDoclet options = Returns docletsToAdd →
  ∃ unfiltered,
    getDocletsToAdd docletCollection childDoclet (without_filter options)
    = Returns unfiltered
    ∧ docletsToAdd `sublist_of` unfiltered.
Proof.
  intros Hrun.
  destruct (ancestors_of childDoclet options) as [ancestors|] eqn:Ha;
    [|by unfold getDocletsToAdd in Hrun; rewrite Ha in Hrun].
  rewrite (getDocletsToAdd_concat _ _ _ _ Ha) in Hrun. injection Hrun as <-.
  eexists. split; [by apply getDocletsToAdd_concat|].
  clear Ha. induction ancestors as [|a l IH]; simpl; [done|].
  apply sublist_app; [|done]. apply filter_sublist. intros d.
  rewrite !shouldDocletBeAdded_spec. intros (? & ? & ? & _).
  split; [done|]. split; [done|]. split; [done|].
  intros key expected Hk.
  change (default ∅ _) with (∅ : gmap string value) in Hk.
  by rewrite lookup_empty in Hk.
Qed.

Lemma filter_only_removes_candidates_witness :
  ∃ unfiltered,
    getDocletsToAdd zoo dog (without_filter static_only) = Returns unfiltered
    ∧ [create] `sublist_of` unfiltered.
Proof.
  apply (filter_only_removes_candidates zoo dog static_only [create]).
  vm_compute. reflexivity.
Defined.

(** * Properties of the release task *)

Section release.
Import Release.

(** ** The archive of a dry run *)

Lemma string_app_assoc (a b c : string) : (a +:+ b) +:+ c = a +:+ b +:+ c.
Proof.
  induction a as [|x a IH]; [done|].
  change (String x ((a +:+ b) +:+ c) = String x (a +:+ b +:+ c)). by f_equal.
Qed.

Lemma replace_first_hit (c : ascii) (replacement pre post : string) :
  c ∉ list_ascii_of_string pre →
  replace_first c replacement (pre +:+ String c post)
  = pre +:+ replacement +:+ post.
Proof.
  induction pre as [|x pre IH]; simpl; intros Hc.
  - by rewrite Ascii.eqb_refl.
  - destruct (Ascii.eqb_spec x c) as [-> |_]; [destruct Hc; left|].
    rewrite IH; [done|]. intros ?. apply Hc. by right.
Qed.

(** X13: for a scoped package [@scope/name] whose scope has no ['/'], the archive
    is [scope-name-version.tgz]: the leading ['@'] is dropped and only the
    first ['/'] becomes ['-']. *)
Theorem archive_of_scoped_package (packageJson : obj) (scope name : string) :
  field packageJson "name" = VStr ("@" +:+ scope +:+ "/" +:+ name) →
  "/"%char ∉ list_ascii_of_string scope →
  archiveName packageJson
  = Returns (scope +:+ "-" +:+ name +:+ "-"
             +:+ to_string (field packageJson "version") +:+ ".tgz").
Proof.
  intros Hname Hscope. unfold archiveName. rewrite Hname.
  change ("@" +:+ scope +:+ "/" +:+ name)
    with (String "@" (scope +:+ String "/" name)).
  cbn [replace_first]. rewrite Ascii.eqb_refl.
  change ("" +:+ scope +:+ String "/" name) with (scope +:+ String "/" name).
  rewrite replace_first_hit by done.
  by rewrite !string_app_assoc.
Qed.

Lemma archive_of_scoped_package_witness :
  Release.archiveName dev_env_package_json
  = Returns ("ckeditor" +:+ "-" +:+ "ckeditor5-dev-env" +:+ "-"
             +:+ to_string (field dev_env_package_json "version") +:+ ".tgz").
Proof.
  apply (archive_of_scoped_package dev_env_package_json "ckeditor"
           "ckeditor5-dev-env"); [reflexivity | compute_done].
Defined.

(** ** The latest release on GitHub *)

(** X14: with a tag and a [package.json] version that are strings, no release is
    made on GitHub exactly when the tag is the version prefixed with [v], or is
    the version itself and does not start with [v]. *)
Theorem github_release_is_skipped_iff (tag version : string) :
  shouldReleaseOnGithub (VStr tag) (VStr version) = Returns false
  ↔ tag = String "v" version
    ∨ (tag = version ∧ ∀ rest, tag ≠ String "v" rest).
Proof.
  assert (shouldReleaseOnGithub (VStr tag) (VStr version)
          = Returns (negb (String.eqb (strip_leading_v tag) version))) as ->.
  { unfold shouldReleaseOnGithub, githubVersion. by destruct tag. }
  assert (∀ b, Returns (negb b) = Returns false ↔ b = true) as ->.
  { intros []; split; (done || by intros [=]). }
  rewrite String.eqb_eq. destruct tag as [|c rest].
  - simpl. split; [intros <-; right; by split|]. by intros [?|[? _]].
  - destruct (ascii_dec c "v") as [-> |Hc].
    + simpl. split; [intros ->; by left|].
      intros [[= ->] | [_ Hno]]; [done|]. by destruct (Hno rest).
    + assert (strip_leading_v (String c rest) = String c rest) as ->.
      { destruct c as [[] [] [] [] [] [] [] []]; try done. }
      split.
      * intros <-. right. split; [done|]. intros rest' [= -> _]. done.
      * by intros [[= -> _] | [? _]].
Qed.

(** ** The answer of npm *)










(** ** The [package.json] of an empty release *)

Lemma assign_lookup (o : obj) (k k' : string) (v : value) :
  assign o k v !! k'
  = if decide (k = k') then
      match o !! k with
      | Some _ => Some v
      | None => if String.eqb k "__proto__" then None else Some v
      end
    else o !! k'.
Proof.
  unfold assign. destruct (decide (k = k')) as [<- |Hne].
  - destruct (o !! k) eqn:Ho; [by rewrite lookup_insert_eq|].
    destruct (String.eqb k "__proto__"); [done|by rewrite lookup_insert_eq].
  - destruct (o !! k); [by rewrite lookup_insert_ne|].
    destruct (String.eqb k "__proto__"); [done|by rewrite lookup_insert_ne].
Qed.

Lemma foldl_assign_lookup (l : list (string * value)) (o : obj) (k : string) :
  NoDup l.*1 →
  foldl (λ json (kv : string * value), assign json kv.1 kv.2) o l !! k
  = match (list_to_map l : obj) !! k with
    | Some v =>
        match o !! k with
        | Some _ => Some v
        | None => if String.eqb k "__proto__" then None else Some v
        end
    | None => o !! k
    end.
Proof.
  revert o. induction l as [|[k1 v1] l IH]; intros o Hnodup; simpl; [done|].
  apply NoDup_cons in Hnodup as [Hk1 Hnodup].
  rewrite IH by done. rewrite assign_lookup.
  destruct (decide (k1 = k)) as [<- |Hne].
  - rewrite lookup_insert_eq.
    by rewrite (not_elem_of_list_to_map_1 (M:=gmap string) l k1 Hk1).
  - by rewrite lookup_insert_ne.
Qed.

Lemma overwrite_lookup (jsonFile additional : obj) (k : string) :
  overwrite jsonFile additional !! k
  = match additional !! k with
    | Some v =>
        match jsonFile !! k with
        | Some _ => Some v
        | None => if String.eqb k "__proto__" then None else Some v
        end
    | None => jsonFile !! k
    end.
Proof.
  unfold overwrite. rewrite foldl_assign_lookup by apply NoDup_fst_map_to_list.
  by rewrite list_to_map_to_list.
Qed.

Lemma foldl_copy_if_unset_lookup (packageJson : obj) (properties : list string)
    (json : gmap string slot) (k : string) :
  NoDup properties →
  foldl (copy_if_unset packageJson) json properties !! k
  = if decide (k ∈ properties) then
      (λ current, if slot_truthy current then current else read packageJson k)
        <$> json !! k
    else json !! k.
Proof.
  revert json. induction properties as [|p ps IH]; intros json Hnodup;
    cbn [foldl].
  - by rewrite decide_False by apply not_elem_of_nil.
  - apply NoDup_cons in Hnodup as [Hp Hnodup]. rewrite IH by done.
    assert (copy_if_unset packageJson json p !! k
            = if decide (k = p) then
                (λ current,
                   if slot_truthy current then current else read packageJson k)
                  <$> json !! k
              else json !! k) as ->.
    { unfold copy_if_unset. destruct (decide (k = p)) as [-> |Hne].
      - destruct (json !! p) as [current|] eqn:Hcur; [|by rewrite Hcur].
        destruct (slot_truthy current) eqn:Ht; simpl.
        + by rewrite Hcur, Ht.
        + by rewrite lookup_insert_eq, Ht.
      - destruct (json !! p) as [current|]; [|done].
        destruct (slot_truthy current); [done|by rewrite lookup_insert_ne]. }
    destruct (decide (k = p)) as [-> |Hne].
    + rewrite decide_False by done. by rewrite decide_True by left.
    + destruct (decide (k ∈ ps)) as [Hin|Hnin].
      * by rewrite decide_True by (by right).
      * rewrite decide_False; [done|]. by intros [?|?]%elem_of_cons.
Qed.

(** What the written [package.json] holds for a property, in one formula. *)
Lemma updatePackageJson_lookup (custom : gmap string obj)
    (packageJson jsonFile : obj) (k : string) :
  ∃ written,
    updatePackageJson (Some custom) packageJson jsonFile = Returns written
    ∧ written !! k
      = (λ v, if truthy v then Plain v else read packageJson k)
          <$> overwrite jsonFile
                (default ∅ (custom !! to_string (field packageJson "name"))) !! k.
Proof.
  unfold updatePackageJson, additionalPackageJson. cbn [mbind outcome_bind].
  eexists. split; [done|].
  rewrite foldl_copy_if_unset_lookup by apply NoDup_fst_map_to_list.
  rewrite lookup_fmap.
  destruct (overwrite _ _ !! k) as [v|] eqn:Hv; [|by destruct (decide _)].
  destruct (decide _) as [_|Hnin]; [done|]. destruct Hnin.
  apply list_elem_of_fmap. exists (k, v). split; [done|].
  by apply elem_of_map_to_list.
Qed.

(** X16: a property given in [options.packageJsonForEmptyReleases] for the
    package is written as given when its value is truthy; a falsy value
    ([null], [false], [0], ['']) is replaced by what the [package.json] of the
    package holds under that name. *)
Theorem custom_value_wins_only_when_truthy (custom : gmap string obj)
    (packageJson jsonFile additional : obj) (property : string) (v : value) :
  custom !! to_string (field packageJson "name") = Some additional →
  additional !! property = Some v →
  property ≠ "__proto__" →
  ∃ written,
    updatePackageJson (Some custom) packageJson jsonFile = Returns written
    ∧ written !! property
      = Some (if truthy v then Plain v else read packageJson property).
Proof.
  intros Hcustom Hv Hproto.
  destruct (updatePackageJson_lookup custom packageJson jsonFile property)
    as (written & Hrun & Hlookup).
  exists written. split; [done|]. rewrite Hlookup, overwrite_lookup, Hcustom.
  simpl. rewrite Hv. apply String.eqb_neq in Hproto. rewrite Hproto.
  by destruct (jsonFile !! property).
Qed.

Lemma custom_value_wins_only_when_truthy_witness :
  ∃ written,
    Release.updatePackageJson (Some custom_fields) ckeditor5_package_json
      release_template = Returns written
    ∧ written !! "private"
      = Some (if truthy (VBool false) then Release.Plain (VBool false)
              else Release.read ckeditor5_package_json "private").
Proof.
  apply (custom_value_wins_only_when_truthy custom_fields ckeditor5_package_json
           release_template
           (doclet [("description", VStr "Custom description");
                    ("devDependencies", VNull); ("private", VBool false)])
           "private" (VBool false));
    [vm_compute; reflexivity | vm_compute; reflexivity | discriminate].
Defined.

(** X17: a property of the template that the custom fields do not name keeps a
    truthy template value, and otherwise takes what the [package.json] of the
    package holds under that name. *)
Theorem template_property_is_filled_from_package_json
    (custom : gmap string obj) (packageJson jsonFile : obj)
    (property : string) (v : value) :
  default ∅ (custom !! to_string (field packageJson "name")) !! property = None →
  jsonFile !! property = Some v →
  ∃ written,
    updatePackageJson (Some custom) packageJson jsonFile = Returns written
    ∧ written !! property
      = Some (if truthy v then Plain v else read packageJson property).
Proof.
  intros Hcustom Hv.
  destruct (updatePackageJson_lookup custom packageJson jsonFile property)
    as (written & Hrun & Hlookup).
  exists written. split; [done|].
  by rewrite Hlookup, overwrite_lookup, Hcustom, Hv.
Qed.

Lemma template_property_is_filled_from_package_json_witness :
  ∃ written,
    Release.updatePackageJson (Some custom_fields) ckeditor5_package_json
      release_template = Returns written
    ∧ written !! "version"
      = Some (if truthy (VStr "") then Release.Plain (VStr "")
              else Release.read ckeditor5_package_json "version").
Proof.
  apply (template_property_is_filled_from_package_json custom_fields
           ckeditor5_package_json release_template "version" (VStr ""));
    vm_compute; reflexivity.
Defined.


End release.
